(** * Auction_App: the bid handler of [backend/server.js] and the update
    route of [backend/routes/auctions.js]

    The development embeds the two places of the repository where an
    auction document is written: the Socket.io [place-bid] handler and
    the [PUT /api/auctions/:id] route.  Documents follow the Mongoose
    schema of [models/Auction.js]; the MongoDB collections are finite
    maps and lists; an [await] is a point where another handler may run.

    Numbers: a JavaScript number that reaches the handler through JSON is
    finite; comparison of finite doubles is exact, so amounts and prices
    are rationals ([Q]) compared with [Qle_bool].  Dates are compared by
    their millisecond value ([Z]). *)

From Stdlib Require Import QArith Lqa ZArith Ascii String List Sorted.
From stdpp Require Import gmap strings list pretty.

Local Open Scope Z_scope.
Local Open Scope string_scope.
Local Open Scope list_scope.

(** ** Documents *)

(** [status: { enum: ['active', 'ended', 'cancelled'], default: 'active' }] *)
Inductive Status := active | ended | cancelled.

#[global] Instance Status_eq_dec : EqDecision Status.
Proof. solve_decision. Defined.

(** The paths of [auctionSchema]; ObjectIds are numbers, dates are
    milliseconds. *)
Record Auction := {
  title : string;
  description : string;
  startingPrice : Q;
  currentPrice : Q;
  category : string;
  image : string;
  status : Status;
  startTime : Z;
  endTime : Z;
  seller : N;
  highestBidder : option N;
  bidCount : Z;
  createdAt : Z
}.

(** The paths the handler gives to [new Bid({...})], and the [_id] that
    Mongoose generates for the new document. *)
Record Bid := {
  _id : N;
  auction : N;
  bidder : N;
  amount : Q
}.

(** The two paths of a user that [populate('bidder', 'name email')] keeps. *)
Record User := {
  name : string;
  email : string
}.

(** The collections. *)
Record Store := {
  auctions : gmap N Auction;
  bids : list Bid;
  users : gmap N User
}.

(** An auction identifier as a client sends it: either it casts to an
    ObjectId, or Mongoose's cast of it fails. *)
Inductive AuctionRef :=
  | ObjectId (oid : N)
  | Malformed (raw : string).

#[global] Instance AuctionRef_eq_dec : EqDecision AuctionRef.
Proof. solve_decision. Defined.

#[global] Instance AuctionRef_countable : Countable AuctionRef.
Proof.
  refine (inj_countable'
            (fun r => match r with ObjectId o => inl o | Malformed s => inr s end)
            (fun x => match x with inl o => ObjectId o | inr s => Malformed s end) _).
  by intros [].
Defined.

(** Errors thrown by Mongoose calls; [error.message] is not rendered. *)
Inductive MongooseError :=
  | CastError (raw : string)
  | ValidationError (model : string)
  | DocumentNotFoundError.

Inductive Message :=
  | Literal (text : string)
  | ErrorMessage (error : MongooseError).

(** ** Sockets, rooms and emitted events *)

(** [socket.userId] is set by the [io.use] middleware from the token. *)
Record Socket := {
  socket_id : N;
  userId : N
}.

Record PopulatedBid := {
  bid_doc : Bid;
  bidder_info : option User
}.

Inductive Payload :=
  | bid_error (message : Message)
  | new_bid (bid : option PopulatedBid) (price : Q).

(** [socket.emit(...)] reaches one socket, [io.to(room).emit(...)] the
    sockets that joined the room [`auction-${auctionId}`]. *)
Inductive Emit :=
  | ToSocket (sid : N) (p : Payload)
  | ToRoom (room : AuctionRef) (p : Payload).

(** [socket.on('join-auction', ...)]: [socket.join(`auction-${auctionId}`)]. *)
Definition join_auction (rooms : gmap AuctionRef (gset N)) (socket : Socket)
    (auctionId : AuctionRef) : gmap AuctionRef (gset N) :=
  <[auctionId := {[socket_id socket]} ∪ rooms !!! auctionId]> rooms.

(** What a socket receives from one emit. *)
Definition delivered (rooms : gmap AuctionRef (gset N)) (sid : N) (e : Emit)
    : list Payload :=
  match e with
  | ToSocket sid' p => if decide (sid' = sid) then [p] else []
  | ToRoom room p => if decide (sid ∈ rooms !!! room) then [p] else []
  end.

Definition received (rooms : gmap AuctionRef (gset N)) (sid : N)
    (es : list Emit) : list Payload :=
  flat_map (delivered rooms sid) es.

(** ** Mongoose: schema validation, setters and the calls of the handlers *)

(** [trim: true] on [title], [description] and [category]: the setter
    applies [String.prototype.trim] when the path is assigned. *)
Definition is_space (c : ascii) : bool :=
  let n := nat_of_ascii c in
  ((9 <=? n)%nat && (n <=? 13)%nat) || (n =? 32)%nat.

Fixpoint trim_start (s : string) : string :=
  match s with
  | String c rest => if is_space c then trim_start rest else s
  | EmptyString => EmptyString
  end.

Definition string_rev (s : string) : string :=
  string_of_list_ascii (rev (list_ascii_of_string s)).

Definition trim (s : string) : string :=
  string_rev (trim_start (string_rev (trim_start s))).

(** [required] on a String path rejects the empty string; [min: 0]
    rejects negative numbers.  The other required paths always hold a
    value in [Auction]. *)
Definition nonempty (s : string) : bool :=
  match s with EmptyString => false | String _ _ => true end.

Definition Auction_validate (a : Auction) : bool :=
  nonempty (title a) && nonempty (description a) && nonempty (category a)
  && Qle_bool 0 (startingPrice a) && Qle_bool 0 (currentPrice a).

(** [models/Bid.js] is not among the sources: what its schema accepts is
    a parameter of the development. *)
Class BidSchema := { Bid_validate : Bid -> bool }.

(** Assignments to paths of a loaded auction document. *)
Definition set_currentPrice (v : Q) (a : Auction) : Auction :=
  {| title := title a; description := description a;
     startingPrice := startingPrice a; currentPrice := v;
     category := category a; image := image a; status := status a;
     startTime := startTime a; endTime := endTime a; seller := seller a;
     highestBidder := highestBidder a; bidCount := bidCount a;
     createdAt := createdAt a |}.

Definition set_highestBidder (v : option N) (a : Auction) : Auction :=
  {| title := title a; description := description a;
     startingPrice := startingPrice a; currentPrice := currentPrice a;
     category := category a; image := image a; status := status a;
     startTime := startTime a; endTime := endTime a; seller := seller a;
     highestBidder := v; bidCount := bidCount a;
     createdAt := createdAt a |}.

Definition set_title (v : string) (a : Auction) : Auction :=
  {| title := trim v; description := description a;
     startingPrice := startingPrice a; currentPrice := currentPrice a;
     category := category a; image := image a; status := status a;
     startTime := startTime a; endTime := endTime a; seller := seller a;
     highestBidder := highestBidder a; bidCount := bidCount a;
     createdAt := createdAt a |}.

Definition set_description (v : string) (a : Auction) : Auction :=
  {| title := title a; description := trim v;
     startingPrice := startingPrice a; currentPrice := currentPrice a;
     category := category a; image := image a; status := status a;
     startTime := startTime a; endTime := endTime a; seller := seller a;
     highestBidder := highestBidder a; bidCount := bidCount a;
     createdAt := createdAt a |}.

Definition set_category (v : string) (a : Auction) : Auction :=
  {| title := title a; description := description a;
     startingPrice := startingPrice a; currentPrice := currentPrice a;
     category := trim v; image := image a; status := status a;
     startTime := startTime a; endTime := endTime a; seller := seller a;
     highestBidder := highestBidder a; bidCount := bidCount a;
     createdAt := createdAt a |}.

Definition set_image (v : string) (a : Auction) : Auction :=
  {| title := title a; description := description a;
     startingPrice := startingPrice a; currentPrice := currentPrice a;
     category := category a; image := v; status := status a;
     startTime := startTime a; endTime := endTime a; seller := seller a;
     highestBidder := highestBidder a; bidCount := bidCount a;
     createdAt := createdAt a |}.

Definition with_auctions (m : gmap N Auction) (db : Store) : Store :=
  {| auctions := m; bids := bids db; users := users db |}.

Definition with_bids (l : list Bid) (db : Store) : Store :=
  {| auctions := auctions db; bids := l; users := users db |}.

(** [Auction.findById(id)]: the cast of [id] may throw; otherwise the
    document with that [_id], or [null]. *)
Definition Auction_findById (db : Store) (id : AuctionRef)
    : MongooseError + option (N * Auction) :=
  match id with
  | Malformed raw => inl (CastError raw)
  | ObjectId oid => inr (pair oid <$> auctions db !! oid)
  end.

(** [bid.save()] of a new document: validate, then insert. *)
Definition Bid_save `{BidSchema} (db : Store) (bid : Bid)
    : MongooseError + Store :=
  if Bid_validate bid then inr (with_bids (bids db ++ [bid]) db)
  else inl (ValidationError "Bid").

(** [auction.save()] of a loaded document [doc] whose modified paths are
    the ones [assign] sets: the document is validated, then only the
    modified paths are written to the stored document with that [_id]. *)
Definition Auction_save (db : Store) (oid : N) (doc : Auction)
    (assign : Auction -> Auction) : MongooseError + Store :=
  if Auction_validate doc then
    match auctions db !! oid with
    | Some stored => inr (with_auctions (<[oid := assign stored]> (auctions db)) db)
    | None => inl DocumentNotFoundError
    end
  else inl (ValidationError "Auction").

(** [Bid.findById(id).populate('bidder', 'name email')]. *)
Definition Bid_findById_populate (db : Store) (id : N) : option PopulatedBid :=
  match find (fun b => (_id b =? id)%N) (bids db) with
  | Some b => Some {| bid_doc := b; bidder_info := users db !! bidder b |}
  | None => None
  end.

(** ** [socket.on('place-bid', ...)] *)

Record PlaceBidData := {
  auctionId : AuctionRef;
  bidAmount : Q
}.

(** The assignments of lines 96-97. *)
Definition assign_bid (bidAmount : Q) (user : N) (a : Auction) : Auction :=
  set_highestBidder (Some user) (set_currentPrice bidAmount a).

(** The handler run without interruption: [now] is the value of
    [new Date()] at line 78 and [new_oid] the [_id] generated by
    [new Bid(...)].  The result is the store after the handler and the
    events it emitted, in order. *)
Definition place_bid `{BidSchema} (db : Store) (socket : Socket)
    (data : PlaceBidData) (now : Z) (new_oid : N) : Store * list Emit :=
  let emit_error m := [ToSocket (socket_id socket) (bid_error m)] in
  match Auction_findById db (auctionId data) with
  | inl error => (db, emit_error (ErrorMessage error))
  | inr None => (db, emit_error (Literal "Auction not found"))
  | inr (Some (oid, auction_doc)) =>
    if decide (status auction_doc ≠ active) then
      (db, emit_error (Literal "Auction is not active"))
    else if decide (endTime auction_doc < now) then
      (db, emit_error (Literal "Auction has ended"))
    else if Qle_bool (bidAmount data) (currentPrice auction_doc) then
      (db, emit_error (Literal "Bid must be higher than current price"))
    else
      let bid := {| _id := new_oid; auction := oid;
                    bidder := userId socket; amount := bidAmount data |} in
      match Bid_save db bid with
      | inl error => (db, emit_error (ErrorMessage error))
      | inr db1 =>
        let assign := assign_bid (bidAmount data) (userId socket) in
        match Auction_save db1 oid (assign auction_doc) assign with
        | inl error => (db1, emit_error (ErrorMessage error))
        | inr db2 =>
          let bidWithUser := Bid_findById_populate db2 (_id bid) in
          (db2, [ToRoom (auctionId data) (new_bid bidWithUser (bidAmount data))])
        end
      end
  end.

(** ** The handler between its awaits

    The handler is an [async] function: it gives up control at each
    [await], and another handler may run before it is resumed.  A task is
    what remains of one [place-bid] call at such a point, with its local
    variables. *)
Inductive Task :=
  | AwaitAuctionFind (socket : Socket) (data : PlaceBidData) (now : Z) (new_oid : N)
  | AwaitBidSave (socket : Socket) (data : PlaceBidData) (oid : N)
      (auction_doc : Auction) (bid : Bid)
  | AwaitAuctionSave (socket : Socket) (data : PlaceBidData) (oid : N)
      (auction_doc : Auction) (bid : Bid)
  | AwaitBidFind (socket : Socket) (data : PlaceBidData) (bid : Bid)
  | Returned.

(** One database call of the task and the code up to the next [await]. *)
Definition resume `{BidSchema} (db : Store) (t : Task) : Store * Task * list Emit :=
  let emit_error socket m := [ToSocket (socket_id socket) (bid_error m)] in
  match t with
  | AwaitAuctionFind socket data now new_oid =>
    match Auction_findById db (auctionId data) with
    | inl error => (db, Returned, emit_error socket (ErrorMessage error))
    | inr None => (db, Returned, emit_error socket (Literal "Auction not found"))
    | inr (Some (oid, auction_doc)) =>
      if decide (status auction_doc ≠ active) then
        (db, Returned, emit_error socket (Literal "Auction is not active"))
      else if decide (endTime auction_doc < now) then
        (db, Returned, emit_error socket (Literal "Auction has ended"))
      else if Qle_bool (bidAmount data) (currentPrice auction_doc) then
        (db, Returned,
         emit_error socket (Literal "Bid must be higher than current price"))
      else
        let bid := {| _id := new_oid; auction := oid;
                      bidder := userId socket; amount := bidAmount data |} in
        (db, AwaitBidSave socket data oid auction_doc bid, [])
    end
  | AwaitBidSave socket data oid auction_doc bid =>
    match Bid_save db bid with
    | inl error => (db, Returned, emit_error socket (ErrorMessage error))
    | inr db1 =>
      let assign := assign_bid (bidAmount data) (userId socket) in
      (db1, AwaitAuctionSave socket data oid (assign auction_doc) bid, [])
    end
  | AwaitAuctionSave socket data oid auction_doc bid =>
    match Auction_save db oid auction_doc
            (assign_bid (bidAmount data) (userId socket)) with
    | inl error => (db, Returned, emit_error socket (ErrorMessage error))
    | inr db2 => (db2, AwaitBidFind socket data bid, [])
    end
  | AwaitBidFind socket data bid =>
    let bidWithUser := Bid_findById_populate db (_id bid) in
    (db, Returned, [ToRoom (auctionId data) (new_bid bidWithUser (bidAmount data))])
  | Returned => (db, Returned, [])
  end.

(** The server: the store, the pending handlers, and what was emitted. *)
Record System := {
  store : Store;
  tasks : list Task;
  log : list Emit
}.

(** The event loop resumes task [i]. *)
Definition schedule_step `{BidSchema} (sys : System) (i : nat) : System :=
  match tasks sys !! i with
  | None => sys
  | Some t =>
    let '(db, t', es) := resume (store sys) t in
    {| store := db; tasks := <[i := t']> (tasks sys); log := log sys ++ es |}
  end.

Definition run `{BidSchema} (sys : System) (schedule : list nat) : System :=
  fold_left schedule_step schedule sys.

(** The prices of the [new-bid] events of one auction, in emission order. *)
Definition committed_price (oid : N) (e : Emit) : list Q :=
  match e with
  | ToRoom (ObjectId o) (new_bid _ price) => if decide (o = oid) then [price] else []
  | _ => []
  end.

Definition committed_prices (oid : N) (es : list Emit) : list Q :=
  flat_map (committed_price oid) es.

(** Handlers run one after another, each to its end. *)
Record Submission := {
  sub_socket : Socket;
  sub_data : PlaceBidData;
  sub_now : Z;
  sub_oid : N
}.

Fixpoint serve `{BidSchema} (db : Store) (subs : list Submission)
    : Store * list Emit :=
  match subs with
  | [] => (db, [])
  | s :: rest =>
    let '(db1, es1) := place_bid db (sub_socket s) (sub_data s) (sub_now s) (sub_oid s) in
    let '(db2, es2) := serve db1 rest in
    (db2, es1 ++ es2)
  end.

(** ** [router.put('/:id', apiLimiter, protect, ...)] *)

(** [req.user] as the [protect] middleware leaves it. *)
Record ReqUser := {
  user_id : N;
  role : string
}.

(** The four paths read from [req.body]; [None] is [undefined]. *)
Record UpdateBody := {
  body_title : option string;
  body_description : option string;
  body_category : option string;
  body_image : option string
}.

Record PopulatedAuction := {
  auction_fields : Auction;
  seller_info : option User;
  highestBidder_info : option User
}.

Inductive Response :=
  | NotFound
  | NotAuthorized
  | ServerError (error : MongooseError)
  | Success (data : option PopulatedAuction).

(** [if (v) auction.path = v]: an absent or empty string is falsy. *)
Definition assign_if_truthy (set : string -> Auction -> Auction)
    (v : option string) (a : Auction) : Auction :=
  match v with
  | Some s => if nonempty s then set s a else a
  | None => a
  end.

(** [if (v !== undefined) auction.path = v]. *)
Definition assign_if_defined (set : string -> Auction -> Auction)
    (v : option string) (a : Auction) : Auction :=
  match v with
  | Some s => set s a
  | None => a
  end.

(** Lines 207-210. *)
Definition assign_body (body : UpdateBody) (a : Auction) : Auction :=
  assign_if_defined set_image (body_image body)
    (assign_if_truthy set_category (body_category body)
      (assign_if_truthy set_description (body_description body)
        (assign_if_truthy set_title (body_title body) a))).

(** [Auction.findById(id).populate('seller', ...).populate('highestBidder', ...)]. *)
Definition Auction_findById_populate (db : Store) (oid : N)
    : option PopulatedAuction :=
  match auctions db !! oid with
  | Some a =>
    Some {| auction_fields := a;
            seller_info := users db !! seller a;
            highestBidder_info := highestBidder a ≫= fun u => users db !! u |}
  | None => None
  end.

Definition put_auction (db : Store) (id : AuctionRef) (user : ReqUser)
    (body : UpdateBody) : Store * Response :=
  match Auction_findById db id with
  | inl error => (db, ServerError error)
  | inr None => (db, NotFound)
  | inr (Some (oid, auction_doc)) =>
    if decide (seller auction_doc ≠ user_id user ∧ role user ≠ "admin") then
      (db, NotAuthorized)
    else
      match Auction_save db oid (assign_body body auction_doc) (assign_body body) with
      | inl error => (db, ServerError error)
      | inr db' => (db', Success (Auction_findById_populate db' oid))
      end
  end.

(** ** What a commit is, and which submissions are refused *)

(** The auction [oid] holds the new price and bidder, and one bid with the
    submitted values was appended to the bid collection. *)
Definition bid_committed (db db' : Store) (oid user : N) (amt : Q) : Prop :=
  (exists a', auctions db' !! oid = Some a'
              /\ currentPrice a' = amt /\ highestBidder a' = Some user)
  /\ exists b, bids db' = bids db ++ [b]
               /\ auction b = oid /\ bidder b = user /\ amount b = amt.

(** The four refusals of lines 68-86. *)
Inductive refused (db : Store) (now : Z) (amt : Q) (oid : N) : Prop :=
  | refused_not_found :
      auctions db !! oid = None -> refused db now amt oid
  | refused_not_active a :
      auctions db !! oid = Some a -> status a ≠ active -> refused db now amt oid
  | refused_past_deadline a :
      auctions db !! oid = Some a -> endTime a < now -> refused db now amt oid
  | refused_not_above a :
      auctions db !! oid = Some a -> (amt <= currentPrice a)%Q ->
      refused db now amt oid.

(** The first check that fails, in the order of the handler. *)
Inductive first_failure (db : Store) (now : Z) (amt : Q) (oid : N) : string -> Prop :=
  | fails_not_found :
      auctions db !! oid = None ->
      first_failure db now amt oid "Auction not found"
  | fails_not_active a :
      auctions db !! oid = Some a -> status a ≠ active ->
      first_failure db now amt oid "Auction is not active"
  | fails_ended a :
      auctions db !! oid = Some a -> status a = active -> endTime a < now ->
      first_failure db now amt oid "Auction has ended"
  | fails_too_low a :
      auctions db !! oid = Some a -> status a = active -> now <= endTime a ->
      (amt <= currentPrice a)%Q ->
      first_failure db now amt oid "Bid must be higher than current price".

(** The paths of an auction that the update route has no assignment for. *)
Definition same_bidding_paths (a a' : Auction) : Prop :=
  currentPrice a' = currentPrice a /\ highestBidder a' = highestBidder a
  /\ status a' = status a /\ startingPrice a' = startingPrice a
  /\ endTime a' = endTime a /\ startTime a' = startTime a
  /\ seller a' = seller a /\ bidCount a' = bidCount a
  /\ createdAt a' = createdAt a.

(** Every stored auction passed the schema validation. *)
Definition valid_store (db : Store) : Prop :=
  forall oid a, auctions db !! oid = Some a -> Auction_validate a = true.

(** The store after an accepted bid. *)
Definition after_commit (db : Store) (oid : N) (a : Auction) (b : Bid) : Store :=
  {| auctions := <[oid := assign_bid (amount b) (bidder b) a]> (auctions db);
     bids := bids db ++ [b];
     users := users db |}.

(** The messages of the four checks. *)
Definition check_messages : list string :=
  ["Auction not found"; "Auction is not active"; "Auction has ended";
   "Bid must be higher than current price"].

(** ** A shop with one auction, used in the examples *)

(** A Bid schema with [amount: { min: 0 }]. *)
Definition amount_min_0 : BidSchema :=
  {| Bid_validate b := Qle_bool 0 (amount b) |}.

Definition lamp : Auction :=
  {| title := "Lamp"; description := "Brass lamp"; startingPrice := 100;
     currentPrice := 100; category := "Home"; image := "";
     status := active; startTime := 0; endTime := 1000; seller := 1%N;
     highestBidder := None; bidCount := 0; createdAt := 0 |}.

Definition ann : User := {| name := "Ann"; email := "ann@example.org" |}.
Definition bob : User := {| name := "Bob"; email := "bob@example.org" |}.

Definition shop : Store :=
  {| auctions := {[ 7%N := lamp ]}; bids := [];
     users := {[ 1%N := ann; 2%N := bob ]} |}.


Definition socket_of (sid user : N) : Socket :=
  {| socket_id := sid; userId := user |}.

Definition bid_on (oid : N) (amt : Q) : PlaceBidData :=
  {| auctionId := ObjectId oid; bidAmount := amt |}.

(** Two handlers for the lamp, offering 120 and 110. *)
Definition race : System :=
  {| store := shop;
     tasks := [AwaitAuctionFind (socket_of 50 2) (bid_on 7 120) 500 900%N;
               AwaitAuctionFind (socket_of 51 3) (bid_on 7 110) 501 901%N];
     log := [] |}.

(** Both handlers read the lamp before either of them writes. *)
Definition race_schedule : list nat := [0; 1; 0; 0; 0; 1; 1; 1]%nat.

(** ** [router.delete('/:id', apiLimiter, protect, ...)] *)

Inductive DeleteResponse :=
  | DeleteNotFound
  | DeleteNotAuthorized
  | DeleteServerError (error : MongooseError)
  | DeleteSuccess.

(** [Bid.deleteMany({ auction: id })]. *)
Definition Bid_deleteMany (db : Store) (oid : N) : Store :=
  with_bids (filter (fun b => auction b ≠ oid) (bids db)) db.

(** [auction.deleteOne()]. *)
Definition Auction_deleteOne (db : Store) (oid : N) : Store :=
  with_auctions (delete oid (auctions db)) db.

Definition delete_auction (db : Store) (id : AuctionRef) (user : ReqUser)
    : Store * DeleteResponse :=
  match Auction_findById db id with
  | inl error => (db, DeleteServerError error)
  | inr None => (db, DeleteNotFound)
  | inr (Some (oid, auction_doc)) =>
    if decide (seller auction_doc ≠ user_id user ∧ role user ≠ "admin") then
      (db, DeleteNotAuthorized)
    else
      (Auction_deleteOne (Bid_deleteMany db oid) oid, DeleteSuccess)
  end.

(** ** [router.post('/', apiLimiter, protect, [...], ...)] *)

(** [req.body] of a creation request.  An absent string field is the
    empty string; [None] for the price is a value that is not a float,
    [None] for the end time a value that is not an ISO 8601 date. *)
Record CreateBody := {
  new_title : string;
  new_description : string;
  new_startingPrice : option Q;
  new_category : string;
  new_image : string;
  new_endTime : option Z
}.

Inductive CreateError :=
  | SchemaError (error : MongooseError)
  | DuplicateKeyError.

Inductive CreateResponse :=
  | ValidationFailed (errors : list string)
  | BadRequest (message : string)
  | CreateServerError (error : CreateError)
  | Created (data : option PopulatedAuction).

(** The validation chains of lines 142-146, in order; [trim()] is a
    sanitizer, [notEmpty()] and [isFloat({ min: 0 })] are validators. *)
Definition create_errors (body : CreateBody) : list string :=
  (if nonempty (trim (new_title body)) then [] else ["Title is required"])
  ++ (if nonempty (trim (new_description body)) then []
      else ["Description is required"])
  ++ (match new_startingPrice body with
      | Some p => if Qle_bool 0 p then []
                  else ["Starting price must be a positive number"]
      | None => ["Starting price must be a positive number"]
      end)
  ++ (if nonempty (trim (new_category body)) then [] else ["Category is required"])
  ++ (match new_endTime body with
      | Some _ => []
      | None => ["End time must be a valid date"]
      end).

(** The document built by [Auction.create({...})]: the schema setters trim
    the three strings, the defaults give [status], [highestBidder],
    [bidCount] and the two dates ([created] is [Date.now]). *)
Definition new_auction (body_title body_description : string) (price : Q)
    (body_category body_image : string) (end_time : Z) (user : N)
    (created : Z) : Auction :=
  {| title := trim body_title; description := trim body_description;
     startingPrice := price; currentPrice := price;
     category := trim body_category; image := body_image;
     status := active; startTime := created; endTime := end_time;
     seller := user; highestBidder := None; bidCount := 0;
     createdAt := created |}.

(** [Auction.create(doc)]: validate, then insert under the new [_id]. *)
Definition Auction_create (db : Store) (new_oid : N) (doc : Auction)
    : CreateError + Store :=
  if Auction_validate doc then
    match auctions db !! new_oid with
    | None => inr (with_auctions (<[new_oid := doc]> (auctions db)) db)
    | Some _ => inl DuplicateKeyError
    end
  else inl (SchemaError (ValidationError "Auction")).

(** [now] is [new Date()] of line 158. *)
Definition post_auction (db : Store) (user : ReqUser) (body : CreateBody)
    (now created : Z) (new_oid : N) : Store * CreateResponse :=
  match create_errors body, new_startingPrice body, new_endTime body with
  | [], Some startingPrice, Some endTime =>
    if decide (endTime <= now) then
      (db, BadRequest "End time must be in the future")
    else
      let doc := new_auction (trim (new_title body)) (trim (new_description body))
                   startingPrice (trim (new_category body))
                   (new_image body) endTime (user_id user) created in
      match Auction_create db new_oid doc with
      | inl error => (db, CreateServerError error)
      | inr db' => (db', Created (Auction_findById_populate db' new_oid))
      end
  | errors, _, _ => (db, ValidationFailed errors)
  end.

(** ** [router.get('/profile', apiLimiter, protect, ...)] *)

Record Stats := {
  auctionsCreated : nat;
  bidsPlaced : nat;
  auctionsWon : nat
}.

(** The three [countDocuments] of lines 45-49. *)
Definition profile_stats (db : Store) (user : N) : Stats :=
  {| auctionsCreated :=
       size (filter (fun p : N * Auction => seller p.2 = user) (auctions db));
     bidsPlaced := length (filter (fun b => bidder b = user) (bids db));
     auctionsWon :=
       size (filter (fun p : N * Auction =>
                       highestBidder p.2 = Some user ∧ status p.2 = ended)
               (auctions db)) |}.

(** ** The auction page of the client ([AuctionDetail]) *)

(** [getTimeRemaining(endTime)], with [now] the value of [new Date()]. *)
Definition getTimeRemaining (now endTime : Z) : string :=
  let diff := endTime - now in
  if decide (diff <= 0) then "Ended"
  else
    let days := diff / (1000 * 60 * 60 * 24) in
    let hours := Z.rem diff (1000 * 60 * 60 * 24) / (1000 * 60 * 60) in
    let minutes := Z.rem diff (1000 * 60 * 60) / (1000 * 60) in
    if decide (days > 0) then
      pretty days +:+ " days, " +:+ pretty hours +:+ " hours, "
        +:+ pretty minutes +:+ " minutes"
    else if decide (hours > 0) then
      pretty hours +:+ " hours, " +:+ pretty minutes +:+ " minutes"
    else pretty minutes +:+ " minutes".

(** [auction.status === 'active' && new Date() < new Date(auction.endTime)]. *)
Definition isActive (auction_view : Auction) (now : Z) : bool :=
  bool_decide (status auction_view = active)
  && bool_decide (now < endTime auction_view).

Inductive ClientAction :=
  | GoToLogin
  | ToastError (message : string)
  | EmitPlaceBid (data : PlaceBidData)
  | NoAction.

(** [handleBid]: [amount] is [parseFloat(bidAmount)], [socket] tells
    whether the page holds a socket, [id] is the route parameter. *)
Definition handleBid (user : option N) (socket : bool) (id : AuctionRef)
    (auction_view : Auction) (amount : Q) : ClientAction :=
  match user with
  | None => GoToLogin
  | Some _ =>
    if Qle_bool amount (currentPrice auction_view) then
      ToastError "Bid must be higher than current price"
    else if socket then EmitPlaceBid {| auctionId := id; bidAmount := amount |}
    else NoAction
  end.

(** ** Handlers one at a time *)

(** The bids of one auction, oldest first. *)
Definition bids_of (oid : N) (db : Store) : list Bid :=
  filter (fun b => auction b = oid) (bids db).

(** One request served to its end by one of the four writing handlers. *)
Inductive served `{BidSchema} (db : Store) : Store -> Prop :=
  | served_place_bid socket data now new_oid :
      served db (fst (place_bid db socket data now new_oid))
  | served_put id user body :
      served db (fst (put_auction db id user body))
  | served_delete id user :
      served db (fst (delete_auction db id user))
  | served_post user body now created new_oid :
      served db (fst (post_auction db user body now created new_oid)).

(** The stores the server can hold, starting without auctions and bids. *)
Inductive reachable `{BidSchema} : Store -> Prop :=
  | reachable_start registered :
      reachable {| auctions := ∅; bids := []; users := registered |}
  | reachable_served db db' :
      reachable db -> served db db' -> reachable db'.

(** What the four handlers keep true of the store. *)
Record consistent (db : Store) : Prop := {
  consistent_valid : valid_store db;
  consistent_refs :
    Forall (fun b => is_Some (auctions db !! auction b)) (bids db);
  consistent_doc :
    forall oid a, auctions db !! oid = Some a ->
      status a = active /\ bidCount a = 0
      /\ StronglySorted Qlt (startingPrice a :: (amount <$> bids_of oid db))
      /\ last (startingPrice a :: (amount <$> bids_of oid db))
         = Some (currentPrice a)
      /\ highestBidder a = bidder <$> last (bids_of oid db)
}.

(** ** Schedules *)



Definition task_of (s : Submission) : Task :=
  AwaitAuctionFind (sub_socket s) (sub_data s) (sub_now s) (sub_oid s).

(** Tasks [first], ..., [first + count - 1], each resumed four times in a
    row. *)
Definition serial (first count : nat) : list nat :=
  flat_map (fun i => [i; i; i; i]) (seq first count).

(** The paths of an auction that the bid handler has no assignment for. *)
Definition same_listing (a a' : Auction) : Prop :=
  title a' = title a /\ description a' = description a
  /\ startingPrice a' = startingPrice a /\ category a' = category a
  /\ image a' = image a /\ status a' = status a
  /\ startTime a' = startTime a /\ endTime a' = endTime a
  /\ seller a' = seller a /\ bidCount a' = bidCount a
  /\ createdAt a' = createdAt a.

(** From one store to a later one, auction by auction. *)
Definition listings_kept (db db' : Store) : Prop :=
  forall k : N,
    option_Forall2 same_listing (auctions db !! k) (auctions db' !! k).

(** ** A market built by the handlers, used in the examples *)

Definition carol : ReqUser := {| user_id := 3; role := "user" |}.
Definition admin : ReqUser := {| user_id := 9; role := "admin" |}.

Definition vase_body : CreateBody :=
  {| new_title := "  Vase "; new_description := "Old vase";
     new_startingPrice := Some 20%Q; new_category := "Art";
     new_image := ""; new_endTime := Some 5000 |}.

Definition no_users : gmap N User := ∅.

Definition opening : Store :=
  {| auctions := ∅; bids := []; users := no_users |}.

(** Carol lists a vase as auction 8 at time 100. *)
Definition listed : Store :=
  fst (post_auction opening carol vase_body 100 101 8).

(** User 2 then bids 30 on it at time 200. *)
Definition market : Store :=
  fst (@place_bid amount_min_0 listed (socket_of 50 2) (bid_on 8 30) 200 900%N).

(** The vase as it is stored, before and after the bid. *)
Definition vase : Auction :=
  new_auction "Vase" "Old vase" 20 "Art" "" 5000 3 101.

Definition vase_bid : Bid :=
  {| _id := 900; auction := 8; bidder := 2; amount := 30 |}.

Definition blank_title : UpdateBody :=
  {| body_title := Some "   "; body_description := None;
     body_category := None; body_image := None |}.

(** Closed goals about the shop are settled by evaluation. *)
Ltac evaluate :=
  first [ reflexivity
        | vm_compute; reflexivity
        | cbn; lia
        | unfold Qle, Qlt; cbn; lia ].

(** * Properties *)

(** ** Comparisons *)

Lemma Qle_bool_false (x y : Q) : Qle_bool x y = false <-> (y < x)%Q.
Proof.
  split; intros Hxy.
  - apply Qnot_le_lt. intros Hle. apply Qle_bool_iff in Hle. congruence.
  - destruct (Qle_bool x y) eqn:E; [|reflexivity].
    apply Qle_bool_iff in E. exfalso. exact (Qlt_not_le _ _ Hxy E).
Qed.

Lemma Qle_bool_true (x y : Q) : (x <= y)%Q -> Qle_bool x y = true.
Proof. apply Qle_bool_iff. Qed.

(** ** The branches of [place_bid] *)

Section PlaceBid.
Context `{BidSchema}.
Variables (db : Store) (socket : Socket) (data : PlaceBidData).
Variables (now : Z) (new_oid oid : N).
Hypothesis Hid : auctionId data = ObjectId oid.

Lemma place_bid_not_found :
  auctions db !! oid = None ->
  place_bid db socket data now new_oid
  = (db, [ToSocket (socket_id socket) (bid_error (Literal "Auction not found"))]).
Proof.
  intros Hnone. unfold place_bid, Auction_findById.
  rewrite Hid, Hnone. reflexivity.
Qed.

Lemma place_bid_not_active a :
  auctions db !! oid = Some a -> status a ≠ active ->
  place_bid db socket data now new_oid
  = (db, [ToSocket (socket_id socket) (bid_error (Literal "Auction is not active"))]).
Proof.
  intros Hsome Hst. unfold place_bid, Auction_findById.
  rewrite Hid, Hsome. simpl. destruct (decide (status a ≠ active)); [reflexivity|contradiction].
Qed.

Lemma place_bid_ended a :
  auctions db !! oid = Some a -> status a = active -> endTime a < now ->
  place_bid db socket data now new_oid
  = (db, [ToSocket (socket_id socket) (bid_error (Literal "Auction has ended"))]).
Proof.
  intros Hsome Hst Hend. unfold place_bid, Auction_findById.
  rewrite Hid, Hsome. simpl.
  destruct (decide (status a ≠ active)); [contradiction|].
  destruct (decide (endTime a < now)); [reflexivity|contradiction].
Qed.

Lemma place_bid_too_low a :
  auctions db !! oid = Some a -> status a = active -> now <= endTime a ->
  (bidAmount data <= currentPrice a)%Q ->
  place_bid db socket data now new_oid
  = (db, [ToSocket (socket_id socket) (bid_error (Literal "Bid must be higher than current price"))]).
Proof.
  intros Hsome Hst Hend Hle. unfold place_bid, Auction_findById.
  rewrite Hid, Hsome. simpl.
  destruct (decide (status a ≠ active)); [contradiction|].
  destruct (decide (endTime a < now)); [lia|].
  rewrite (Qle_bool_true _ _ Hle). reflexivity.
Qed.

(** Past the four checks the outcome is decided by the two saves. *)
Lemma place_bid_passed a :
  auctions db !! oid = Some a -> status a = active -> now <= endTime a ->
  (currentPrice a < bidAmount data)%Q ->
  let bid := {| _id := new_oid; auction := oid;
                bidder := userId socket; amount := bidAmount data |} in
  let assign := assign_bid (bidAmount data) (userId socket) in
  place_bid db socket data now new_oid
  = match Bid_save db bid with
    | inl error => (db, [ToSocket (socket_id socket) (bid_error (ErrorMessage error))])
    | inr db1 =>
      match Auction_save db1 oid (assign a) assign with
      | inl error => (db1, [ToSocket (socket_id socket) (bid_error (ErrorMessage error))])
      | inr db2 =>
        (db2, [ToRoom (auctionId data)
                 (new_bid (Bid_findById_populate db2 new_oid) (bidAmount data))])
      end
    end.
Proof.
  intros Hsome Hst Hend Hlt. unfold place_bid, Auction_findById.
  rewrite Hid, Hsome. simpl.
  destruct (decide (status a ≠ active)); [contradiction|].
  destruct (decide (endTime a < now)); [lia|].
  apply Qle_bool_false in Hlt. rewrite Hlt. reflexivity.
Qed.
End PlaceBid.

(** ** The collections after a save *)

Lemma assign_bid_valid (amt : Q) (user : N) (a : Auction) :
  Auction_validate a = true -> (currentPrice a < amt)%Q ->
  Auction_validate (assign_bid amt user a) = true.
Proof.
  unfold Auction_validate. simpl. rewrite !andb_true_iff.
  intros [[[[Ht Hd] Hc] Hs] Hp] Hlt. repeat split; try assumption.
  apply Qle_bool_iff. apply Qle_bool_iff in Hp.
  apply Qlt_le_weak. eapply Qle_lt_trans; eassumption.
Qed.

Lemma Bid_findById_populate_last (db : Store) (b : Bid) (m : gmap N Auction) :
  Forall (fun b' => _id b' ≠ _id b) (bids db) ->
  Bid_findById_populate (with_auctions m (with_bids (bids db ++ [b]) db)) (_id b)
  = Some {| bid_doc := b; bidder_info := users db !! bidder b |}.
Proof.
  intros Hfresh. unfold Bid_findById_populate. simpl.
  assert (find (fun b' => (_id b' =? _id b)%N) (bids db ++ [b]) = Some b) as ->;
    [|reflexivity].
  induction Hfresh as [|b' l Hne _ IH]; simpl.
  - rewrite N.eqb_refl. reflexivity.
  - apply N.eqb_neq in Hne. rewrite Hne. exact IH.
Qed.

Lemma place_bid_commit `{BidSchema} (db : Store) (socket : Socket)
    (data : PlaceBidData) (now : Z) (new_oid oid : N) (a : Auction) :
  auctionId data = ObjectId oid ->
  auctions db !! oid = Some a -> status a = active -> now <= endTime a ->
  (currentPrice a < bidAmount data)%Q ->
  Auction_validate a = true ->
  let bid := {| _id := new_oid; auction := oid;
                bidder := userId socket; amount := bidAmount data |} in
  Bid_validate bid = true ->
  exists bidWithUser,
    place_bid db socket data now new_oid
    = (after_commit db oid a bid,
       [ToRoom (auctionId data) (new_bid bidWithUser (bidAmount data))]).
Proof.
  intros Hid Hsome Hst Hend Hlt Hva bid Hvb.
  rewrite (place_bid_passed _ _ _ _ _ _ Hid a Hsome Hst Hend Hlt).
  unfold Bid_save. fold bid. rewrite Hvb.
  unfold Auction_save. rewrite (assign_bid_valid _ _ _ Hva Hlt). simpl.
  rewrite Hsome. eexists. reflexivity.
Qed.

(** With a fresh [_id], the bid broadcast to the room is the bid that was
    just saved, with the bidder's name and email. *)
Lemma place_bid_commit_payload `{BidSchema} (db : Store) (socket : Socket)
    (data : PlaceBidData) (now : Z) (new_oid oid : N) (a : Auction) :
  auctionId data = ObjectId oid ->
  auctions db !! oid = Some a -> status a = active -> now <= endTime a ->
  (currentPrice a < bidAmount data)%Q ->
  Auction_validate a = true ->
  let bid := {| _id := new_oid; auction := oid;
                bidder := userId socket; amount := bidAmount data |} in
  Bid_validate bid = true ->
  Forall (fun b => _id b ≠ new_oid) (bids db) ->
  snd (place_bid db socket data now new_oid)
  = [ToRoom (auctionId data)
       (new_bid (Some {| bid_doc := bid;
                         bidder_info := users db !! userId socket |})
          (bidAmount data))].
Proof.
  intros Hid Hsome Hst Hend Hlt Hva bid Hvb Hfresh.
  rewrite (place_bid_passed _ _ _ _ _ _ Hid a Hsome Hst Hend Hlt).
  unfold Bid_save. fold bid. rewrite Hvb.
  unfold Auction_save. rewrite (assign_bid_valid _ _ _ Hva Hlt).
  cbn [auctions with_bids]. rewrite Hsome. cbn [snd].
  rewrite (Bid_findById_populate_last db bid _ Hfresh). reflexivity.
Qed.

Lemma no_self_append {A : Type} (l : list A) (x : A) : l ≠ l ++ [x].
Proof.
  intros Heq. apply (f_equal length) in Heq.
  rewrite length_app in Heq. simpl in Heq. lia.
Qed.

Lemma first_failure_functional (db : Store) (now : Z) (amt : Q) (oid : N)
    (text text' : string) :
  first_failure db now amt oid text -> first_failure db now amt oid text' ->
  text' = text.
Proof.
  intros [Hn|a Ha Hs|a Ha Hs He|a Ha Hs He Hl] [Hn'|b Hb Hs'|b Hb Hs' He'|b Hb Hs' He' Hl'];
    try reflexivity; try congruence;
    try (assert (b = a) by congruence; subst b; first [contradiction | lia]).
Qed.

Lemma place_bid_refused `{BidSchema} (db : Store) (socket : Socket)
    (data : PlaceBidData) (now : Z) (new_oid oid : N) :
  auctionId data = ObjectId oid ->
  refused db now (bidAmount data) oid ->
  exists text,
    In text check_messages
    /\ place_bid db socket data now new_oid
       = (db, [ToSocket (socket_id socket) (bid_error (Literal text))]).
Proof.
  intros Hid Hrefused.
  assert (Hcases : forall a, auctions db !! oid = Some a ->
            status a ≠ active \/ endTime a < now
            \/ (bidAmount data <= currentPrice a)%Q ->
            exists text, In text check_messages
              /\ place_bid db socket data now new_oid
                 = (db, [ToSocket (socket_id socket) (bid_error (Literal text))])).
  { intros a Ha Hwhy.
    destruct (decide (status a = active)) as [Hs|Hs].
    2:{ eexists. split;
          [|exact (place_bid_not_active _ _ _ now new_oid _ Hid a Ha Hs)].
        simpl. tauto. }
    destruct (decide (endTime a < now)) as [He|He].
    { eexists. split;
        [|exact (place_bid_ended _ _ _ _ new_oid _ Hid a Ha Hs He)].
      simpl. tauto. }
    destruct Hwhy as [Hn|[Hn|Hle]]; [contradiction|contradiction|].
    eexists. split;
      [|apply (place_bid_too_low _ _ _ _ _ _ Hid a Ha Hs); [lia|exact Hle]].
    simpl. tauto. }
  destruct Hrefused as [Hnone|a Ha Hs|a Ha He|a Ha Hle].
  - eexists. split; [|exact (place_bid_not_found _ _ _ now new_oid _ Hid Hnone)].
    simpl. tauto.
  - apply (Hcases a Ha). left. exact Hs.
  - apply (Hcases a Ha). right. left. exact He.
  - apply (Hcases a Ha). right. right. exact Hle.
Qed.

(** ** Acceptance and refusal of a submission *)

(** C1: on an existing, active auction whose deadline has not passed, the
    bid is committed (price and highest bidder recorded, one bid appended)
    exactly when the amount is strictly above the current price; an amount
    equal to or below the current price gets the "Bid must be higher than
    current price" error and leaves the store as it was.  The stored
    auction and the new bid are assumed to pass their schema validation. *)
Theorem bid_commits_iff_strictly_higher `{BidSchema} (db : Store)
    (socket : Socket) (data : PlaceBidData) (now : Z) (new_oid oid : N)
    (a : Auction) :
  auctionId data = ObjectId oid ->
  auctions db !! oid = Some a -> status a = active -> now <= endTime a ->
  Auction_validate a = true ->
  Bid_validate {| _id := new_oid; auction := oid;
                  bidder := userId socket; amount := bidAmount data |} = true ->
  let result := place_bid db socket data now new_oid in
  let too_low := [ToSocket (socket_id socket)
                    (bid_error (Literal "Bid must be higher than current price"))] in
  (bid_committed db (fst result) oid (userId socket) (bidAmount data)
   <-> (currentPrice a < bidAmount data)%Q)
  /\ ((currentPrice a < bidAmount data)%Q ->
      exists bidWithUser,
        snd result = [ToRoom (auctionId data) (new_bid bidWithUser (bidAmount data))])
  /\ ((bidAmount data <= currentPrice a)%Q -> result = (db, too_low))
  /\ ((bidAmount data == currentPrice a)%Q -> result = (db, too_low)).
Proof.
  intros Hid Hsome Hst Hend Hva Hvb result too_low.
  assert (Hlow : (bidAmount data <= currentPrice a)%Q -> result = (db, too_low)).
  { intros Hle. subst result.
    exact (place_bid_too_low _ _ _ _ _ _ Hid a Hsome Hst Hend Hle). }
  assert (Hhigh : (currentPrice a < bidAmount data)%Q ->
                  exists bidWithUser, result =
                    (after_commit db oid a
                       {| _id := new_oid; auction := oid;
                          bidder := userId socket; amount := bidAmount data |},
                     [ToRoom (auctionId data) (new_bid bidWithUser (bidAmount data))])).
  { intros Hlt. subst result.
    exact (place_bid_commit _ _ _ _ _ _ a Hid Hsome Hst Hend Hlt Hva Hvb). }
  split; [split|split; [|split]].
  - intros [_ [b [Hb _]]].
    destruct (Qlt_le_dec (currentPrice a) (bidAmount data)) as [Hlt|Hle];
      [exact Hlt|].
    rewrite (Hlow Hle) in Hb. simpl in Hb. destruct (no_self_append _ _ Hb).
  - intros Hlt. destruct (Hhigh Hlt) as [pb ->].
    unfold bid_committed, after_commit. cbn [fst auctions bids amount bidder].
    split.
    + eexists. rewrite lookup_insert_eq. split; [reflexivity|]. split; reflexivity.
    + eexists. split; [reflexivity|]. repeat split; reflexivity.
  - intros Hlt. destruct (Hhigh Hlt) as [pb ->]. exists pb. reflexivity.
  - exact Hlow.
  - intros Heq. apply Hlow. rewrite Heq. apply Qle_refl.
Qed.

(** C2: a submission refused because the auction does not exist, is not
    active, is past its deadline, or because the amount is not strictly
    above the current price leaves the whole store as it was (no price or
    bidder change, no bid appended), and the only event is one [bid-error]
    to the submitting socket: there is no [new-bid] broadcast. *)
Theorem refused_bid_mutates_nothing `{BidSchema} (db : Store)
    (socket : Socket) (data : PlaceBidData) (now : Z) (new_oid oid : N) :
  auctionId data = ObjectId oid ->
  refused db now (bidAmount data) oid ->
  let result := place_bid db socket data now new_oid in
  fst result = db
  /\ (exists text,
        snd result = [ToSocket (socket_id socket) (bid_error (Literal text))])
  /\ forall room p, ~ In (ToRoom room p) (snd result).
Proof.
  intros Hid Hrefused result.
  destruct (place_bid_refused db socket data now new_oid oid Hid Hrefused)
    as [text [_ Heq]].
  subst result. rewrite Heq. simpl. split; [reflexivity|]. split.
  - exists text. reflexivity.
  - intros room p [Hin|[]]. discriminate Hin.
Qed.

(** C10: the checks are made in a fixed order (auction missing, status
    not active, deadline passed, amount not above the price) and the error
    sent is the one of the first check that fails, whatever the later
    checks would say; that error is unique.  A bid below the price on an
    auction that is past its deadline but still marked active gets
    "Auction has ended". *)
Theorem rejection_follows_check_order `{BidSchema} (db : Store)
    (socket : Socket) (data : PlaceBidData) (now : Z) (new_oid oid : N)
    (text : string) :
  auctionId data = ObjectId oid ->
  first_failure db now (bidAmount data) oid text ->
  place_bid db socket data now new_oid
  = (db, [ToSocket (socket_id socket) (bid_error (Literal text))])
  /\ forall text', first_failure db now (bidAmount data) oid text' -> text' = text.
Proof.
  intros Hid Hfail. split.
  - destruct Hfail as [Hn|a Ha Hs|a Ha Hs He|a Ha Hs He Hl].
    + exact (place_bid_not_found _ _ _ now new_oid _ Hid Hn).
    + exact (place_bid_not_active _ _ _ now new_oid _ Hid a Ha Hs).
    + exact (place_bid_ended _ _ _ _ new_oid _ Hid a Ha Hs He).
    + exact (place_bid_too_low _ _ _ _ _ _ Hid a Ha Hs He Hl).
  - intros text' Hfail'. exact (first_failure_functional _ _ _ _ _ _ Hfail Hfail').
Qed.

(** ** Every call emits one event *)

Lemma place_bid_one_event `{BidSchema} (db : Store) (socket : Socket)
    (data : PlaceBidData) (now : Z) (new_oid : N) :
  (exists bidWithUser,
     snd (place_bid db socket data now new_oid)
     = [ToRoom (auctionId data) (new_bid bidWithUser (bidAmount data))])
  \/ (exists m,
        snd (place_bid db socket data now new_oid)
        = [ToSocket (socket_id socket) (bid_error m)]).
Proof.
  unfold place_bid.
  destruct (Auction_findById db (auctionId data)) as [e|[[o a]|]]; simpl;
    [right; eauto| |right; eauto].
  destruct (decide (status a ≠ active)); [right; eauto|].
  destruct (decide (endTime a < now)); [right; eauto|].
  destruct (Qle_bool (bidAmount data) (currentPrice a)); [right; eauto|].
  destruct (Bid_save db _) as [e|db1]; [right; eauto|].
  destruct (Auction_save db1 o _ _) as [e|db2]; [right; eauto|].
  left. eauto.
Qed.

(** A broadcast is only made after both saves. *)
Lemma place_bid_broadcast_inv `{BidSchema} (db : Store) (socket : Socket)
    (data : PlaceBidData) (now : Z) (new_oid : N) (room : AuctionRef)
    (p : Payload) :
  In (ToRoom room p) (snd (place_bid db socket data now new_oid)) ->
  exists oid a,
    auctionId data = ObjectId oid /\ auctions db !! oid = Some a
    /\ status a = active /\ now <= endTime a
    /\ (currentPrice a < bidAmount data)%Q
    /\ fst (place_bid db socket data now new_oid)
       = after_commit db oid a
           {| _id := new_oid; auction := oid;
              bidder := userId socket; amount := bidAmount data |}.
Proof.
  unfold place_bid, Auction_findById.
  destruct (auctionId data) as [oid|raw]; [|intros [Hin|[]]; discriminate Hin].
  destruct (auctions db !! oid) as [a|] eqn:Ha; simpl;
    [|intros [Hin|[]]; discriminate Hin].
  destruct (decide (status a ≠ active)) as [Hs|Hs];
    [intros [Hin|[]]; discriminate Hin|].
  destruct (decide (endTime a < now)) as [He|He];
    [intros [Hin|[]]; discriminate Hin|].
  destruct (Qle_bool (bidAmount data) (currentPrice a)) eqn:Hq;
    [intros [Hin|[]]; discriminate Hin|].
  unfold Bid_save. destruct (Bid_validate _);
    [|intros [Hin|[]]; discriminate Hin].
  unfold Auction_save. destruct (Auction_validate _);
    [|intros [Hin|[]]; discriminate Hin].
  simpl. rewrite Ha. simpl. intros _.
  exists oid, a. repeat split; try reflexivity; try assumption.
  - destruct (decide (status a = active)); [assumption|contradiction].
  - lia.
  - apply Qle_bool_false. exact Hq.
Qed.

(** ** Deadline, malformed input, delivery and the bid record *)

(** C4 (amended): a bid made after the deadline of an existing auction is
    refused even when its amount is above the price, with "Auction has
    ended" when the auction is still marked active and "Auction is not
    active" otherwise; the refusal writes nothing, so the stored auction,
    its status included, is what it was before the bid. *)
Theorem late_bid_refused_store_kept `{BidSchema} (db : Store)
    (socket : Socket) (data : PlaceBidData) (now : Z) (new_oid oid : N)
    (a : Auction) :
  auctionId data = ObjectId oid ->
  auctions db !! oid = Some a -> endTime a < now ->
  let result := place_bid db socket data now new_oid in
  let text := if decide (status a = active) then "Auction has ended"
              else "Auction is not active" in
  result = (db, [ToSocket (socket_id socket) (bid_error (Literal text))])
  /\ auctions (fst result) !! oid = Some a.
Proof.
  intros Hid Ha He result text.
  assert (Hres : result
            = (db, [ToSocket (socket_id socket) (bid_error (Literal text))])).
  { subst result text. destruct (decide (status a = active)) as [Hs|Hs].
    - exact (place_bid_ended _ _ _ _ new_oid _ Hid a Ha Hs He).
    - exact (place_bid_not_active _ _ _ now new_oid _ Hid a Ha Hs). }
  split; [exact Hres|]. rewrite Hres. exact Ha.
Qed.




(** ** What the handlers preserve *)

(** The store after any call: untouched, or one bid appended (the auction
    save failed), or the commit. *)
Lemma place_bid_store_cases `{BidSchema} (db : Store) (socket : Socket)
    (data : PlaceBidData) (now : Z) (new_oid : N) :
  let db' := fst (place_bid db socket data now new_oid) in
  db' = db
  \/ (exists b, db' = with_bids (bids db ++ [b]) db)
  \/ (exists oid a,
        auctionId data = ObjectId oid /\ auctions db !! oid = Some a
        /\ (currentPrice a < bidAmount data)%Q
        /\ Auction_validate
             (assign_bid (bidAmount data) (userId socket) a) = true
        /\ db' = after_commit db oid a
                   {| _id := new_oid; auction := oid;
                      bidder := userId socket; amount := bidAmount data |}).
Proof.
  unfold place_bid, Auction_findById.
  destruct (auctionId data) as [oid|raw]; [|left; reflexivity].
  destruct (auctions db !! oid) as [a|] eqn:Ha; simpl; [|left; reflexivity].
  destruct (decide (status a ≠ active)); [left; reflexivity|].
  destruct (decide (endTime a < now)); [left; reflexivity|].
  destruct (Qle_bool (bidAmount data) (currentPrice a)) eqn:Hq;
    [left; reflexivity|].
  unfold Bid_save. destruct (Bid_validate _); [|left; reflexivity].
  unfold Auction_save.
  destruct (Auction_validate _) eqn:Hv; [|right; left; eexists; reflexivity].
  simpl. rewrite Ha. simpl. right. right. exists oid, a.
  split; [reflexivity|]. split; [exact Ha|].
  split; [apply Qle_bool_false; exact Hq|].
  split; [exact Hv|reflexivity].
Qed.

(** No call changes the status of an auction, creates one or deletes one. *)
Lemma place_bid_keeps_status `{BidSchema} (db : Store) (socket : Socket)
    (data : PlaceBidData) (now : Z) (new_oid : N) (k : N) :
  status <$> auctions (fst (place_bid db socket data now new_oid)) !! k
  = status <$> auctions db !! k.
Proof.
  destruct (place_bid_store_cases db socket data now new_oid)
    as [->|[[b ->]|[oid [a [_ [Ha [_ [_ ->]]]]]]]]; try reflexivity.
  unfold after_commit. cbn [auctions].
  destruct (decide (oid = k)) as [->|Hne].
  - rewrite lookup_insert_eq, Ha. reflexivity.
  - rewrite lookup_insert_ne by exact Hne. reflexivity.
Qed.

(** A call for one auction leaves the documents of the others alone. *)
Lemma place_bid_other_auctions `{BidSchema} (db : Store) (socket : Socket)
    (data : PlaceBidData) (now : Z) (new_oid : N) (k : N) :
  auctionId data ≠ ObjectId k ->
  auctions (fst (place_bid db socket data now new_oid)) !! k = auctions db !! k.
Proof.
  intros Hother.
  destruct (place_bid_store_cases db socket data now new_oid)
    as [->|[[b ->]|[oid [a [Hid [_ [_ [_ ->]]]]]]]]; try reflexivity.
  unfold after_commit. cbn [auctions].
  apply lookup_insert_ne. congruence.
Qed.

(** The schema validation of stored auctions is an invariant of both
    handlers. *)
Lemma place_bid_keeps_valid_store `{BidSchema} (db : Store) (socket : Socket)
    (data : PlaceBidData) (now : Z) (new_oid : N) :
  valid_store db -> valid_store (fst (place_bid db socket data now new_oid)).
Proof.
  intros Hvalid.
  destruct (place_bid_store_cases db socket data now new_oid)
    as [->|[[b ->]|[oid [a [_ [Ha [_ [Hv ->]]]]]]]]; try exact Hvalid.
  intros k a'. unfold after_commit. cbn [auctions amount bidder].
  destruct (decide (oid = k)) as [->|Hne].
  - rewrite lookup_insert_eq. intros [= <-]. exact Hv.
  - rewrite lookup_insert_ne by exact Hne. apply Hvalid.
Qed.

Lemma put_auction_keeps_valid_store (db : Store) (id : AuctionRef)
    (user : ReqUser) (body : UpdateBody) :
  valid_store db -> valid_store (fst (put_auction db id user body)).
Proof.
  intros Hvalid. unfold put_auction, Auction_findById.
  destruct id as [oid|raw]; [|exact Hvalid].
  destruct (auctions db !! oid) as [a|] eqn:Ha; simpl; [|exact Hvalid].
  destruct (decide (seller a ≠ user_id user ∧ role user ≠ "admin"));
    [exact Hvalid|].
  unfold Auction_save. destruct (Auction_validate _) eqn:Hv; [|exact Hvalid].
  rewrite Ha. unfold valid_store. cbn [fst auctions with_auctions]. intros k a'.
  destruct (decide (oid = k)) as [->|Hne].
  - rewrite lookup_insert_eq. intros [= <-]. exact Hv.
  - rewrite lookup_insert_ne by exact Hne. apply Hvalid.
Qed.

(** ** The update route *)

Lemma same_bidding_paths_refl (a : Auction) : same_bidding_paths a a.
Proof. unfold same_bidding_paths. repeat split; reflexivity. Qed.

Lemma assign_body_same_bidding_paths (body : UpdateBody) (a : Auction) :
  same_bidding_paths a (assign_body body a).
Proof.
  unfold assign_body, assign_if_defined, assign_if_truthy.
  destruct (body_image body) as [i|], (body_category body) as [c|],
    (body_description body) as [d|], (body_title body) as [t|];
    repeat match goal with |- context [nonempty ?s] => destruct (nonempty s) end;
    unfold same_bidding_paths; simpl; repeat split; reflexivity.
Qed.

(** C9: whatever the request, the update route leaves the bids and, in
    every auction, the current price, the highest bidder, the status, the
    starting price and the end time as they were (and also the start time,
    the seller, the bid count and the creation date): only the title, the
    description, the category and the image can differ afterwards, no
    auction appears and none disappears. *)
Theorem update_keeps_bidding_paths (db : Store) (id : AuctionRef)
    (user : ReqUser) (body : UpdateBody) :
  let db' := fst (put_auction db id user body) in
  bids db' = bids db /\ users db' = users db
  /\ forall k : N,
       option_Forall2 same_bidding_paths (auctions db !! k) (auctions db' !! k).
Proof.
  assert (Hrefl : forall k : N,
            option_Forall2 same_bidding_paths (auctions db !! k) (auctions db !! k)).
  { intros k. destruct (auctions db !! k); constructor.
    apply same_bidding_paths_refl. }
  unfold put_auction, Auction_findById.
  destruct id as [oid|raw]; [|simpl; auto].
  destruct (auctions db !! oid) as [a|] eqn:Ha; simpl; [|auto].
  destruct (decide (seller a ≠ user_id user ∧ role user ≠ "admin"));
    [simpl; auto|].
  unfold Auction_save. destruct (Auction_validate _); [|simpl; auto].
  rewrite Ha. simpl. split; [reflexivity|]. split; [reflexivity|].
  intros k. destruct (decide (k = oid)) as [->|Hne].
  - rewrite lookup_insert_eq, Ha. constructor.
    apply assign_body_same_bidding_paths.
  - rewrite lookup_insert_ne by congruence. apply Hrefl.
Qed.

(** ** Handlers one after another, and handlers interleaved *)

Lemma committed_prices_app (oid : N) (es1 es2 : list Emit) :
  committed_prices oid (es1 ++ es2)
  = committed_prices oid es1 ++ committed_prices oid es2.
Proof. unfold committed_prices. apply flat_map_app. Qed.

(** One call either leaves the auction [oid] alone and broadcasts no price
    for it, or raises its price to the one price it broadcasts. *)
Lemma place_bid_price_step `{BidSchema} (db : Store) (socket : Socket)
    (data : PlaceBidData) (now : Z) (new_oid oid : N) :
  let result := place_bid db socket data now new_oid in
  (committed_prices oid (snd result) = []
   /\ auctions (fst result) !! oid = auctions db !! oid)
  \/ (exists a a',
        auctions db !! oid = Some a /\ auctions (fst result) !! oid = Some a'
        /\ committed_prices oid (snd result) = [currentPrice a']
        /\ (currentPrice a < currentPrice a')%Q).
Proof.
  intros result.
  destruct (place_bid_one_event db socket data now new_oid) as [[pb Hes]|[m Hes]].
  - assert (Hin : In (ToRoom (auctionId data) (new_bid pb (bidAmount data)))
                    (snd (place_bid db socket data now new_oid)))
      by (rewrite Hes; left; reflexivity).
    destruct (place_bid_broadcast_inv _ _ _ _ _ _ _ Hin)
      as [o [a [Hid [Ha [_ [_ [Hlt Hdb]]]]]]].
    subst result. rewrite Hes, Hdb, Hid.
    unfold after_commit, committed_prices. cbn [fst snd auctions flat_map committed_price amount bidder].
    destruct (decide (o = oid)) as [->|Hne].
    + right. exists a. eexists. rewrite lookup_insert_eq.
      split; [exact Ha|]. split; [reflexivity|]. split; [reflexivity|exact Hlt].
    + left. split; [reflexivity|]. apply lookup_insert_ne. exact Hne.
  - left. subst result. rewrite Hes. split; [reflexivity|].
    revert Hes. unfold place_bid.
    destruct (Auction_findById db (auctionId data)) as [e|[[o a]|]]; simpl;
      try reflexivity.
    destruct (decide (status a ≠ active)); [reflexivity|].
    destruct (decide (endTime a < now)); [reflexivity|].
    destruct (Qle_bool (bidAmount data) (currentPrice a)); [reflexivity|].
    unfold Bid_save. destruct (Bid_validate _); [|reflexivity].
    destruct (Auction_save _ o _ _) as [e|db2]; [reflexivity|].
    simpl. discriminate.
Qed.

Lemma serve_prices `{BidSchema} (oid : N) (subs : list Submission) :
  forall db : Store,
    StronglySorted Qlt (committed_prices oid (snd (serve db subs)))
    /\ forall a, auctions db !! oid = Some a ->
         Forall (Qlt (currentPrice a)) (committed_prices oid (snd (serve db subs))).
Proof.
  induction subs as [|s rest IH]; intros db.
  - simpl. split; [constructor|]. intros a _. constructor.
  - simpl.
    pose proof (place_bid_price_step db (sub_socket s) (sub_data s) (sub_now s)
                  (sub_oid s) oid) as Hstep.
    destruct (place_bid db (sub_socket s) (sub_data s) (sub_now s) (sub_oid s))
      as [db1 es1].
    specialize (IH db1). destruct (serve db1 rest) as [db2 es2].
    simpl in *. rewrite committed_prices_app.
    destruct IH as [IHs IHf].
    destruct Hstep as [[-> Hsame]|[a [a' [Ha [Ha' [-> Hlt]]]]]]; simpl.
    + split; [exact IHs|]. intros a Ha. apply IHf. rewrite Hsame. exact Ha.
    + specialize (IHf a' Ha'). split.
      * constructor; assumption.
      * intros a0 Ha0. assert (a0 = a) by congruence. subst a0.
        constructor; [exact Hlt|].
        eapply Forall_impl; [exact IHf|].
        intros q Hq. eapply Qlt_trans; eassumption.
Qed.

(** C5 (amended): when the handlers of a sequence of submissions run one
    after another, each to its end before the next starts, the prices
    broadcast for one auction are strictly increasing, and each is above
    the price the auction had before the sequence. *)
Theorem serial_bids_commit_increasing_prices `{BidSchema} (db : Store)
    (subs : list Submission) (oid : N) :
  StronglySorted Qlt (committed_prices oid (snd (serve db subs)))
  /\ forall a, auctions db !! oid = Some a ->
       Forall (Qlt (currentPrice a)) (committed_prices oid (snd (serve db subs))).
Proof. exact (serve_prices oid subs db). Qed.

(** A task resumed four times in a row, with no other task in between,
    does what [place_bid] does. *)
Lemma run_alone_is_place_bid `{BidSchema} (db : Store) (socket : Socket)
    (data : PlaceBidData) (now : Z) (new_oid : N) :
  let sys := run {| store := db;
                    tasks := [AwaitAuctionFind socket data now new_oid];
                    log := [] |} [0; 0; 0; 0]%nat in
  (store sys, log sys) = place_bid db socket data now new_oid
  /\ tasks sys = [Returned].
Proof.
  unfold place_bid, run, schedule_step. simpl.
  destruct (Auction_findById db (auctionId data)) as [e|[[o a]|]]; simpl;
    [auto| |auto].
  destruct (decide (status a ≠ active)); simpl; [auto|].
  destruct (decide (endTime a < now)); simpl; [auto|].
  destruct (Qle_bool (bidAmount data) (currentPrice a)); simpl; [auto|].
  destruct (Bid_save db _) as [e|db1]; simpl; [auto|].
  destruct (Auction_save db1 o _ _) as [e|db2]; simpl; auto.
Qed.

(** ** The properties on the shop *)

(** A bid of 150 on the lamp at 100 is committed. *)
Lemma bid_commits_iff_strictly_higher_witness :
  (100 < 150)%Q
  /\ bid_committed shop
       (fst (@place_bid amount_min_0 shop (socket_of 50 2) (bid_on 7 150) 500 900%N))
       7 2 150.
Proof.
  split; [evaluate|].
  refine (proj2 (proj1 (@bid_commits_iff_strictly_higher amount_min_0 shop
            (socket_of 50 2) (bid_on 7 150) 500 900%N 7%N lamp _ _ _ _ _ _)) _);
    evaluate.
Defined.

(** A bid of 90 on the lamp at 100 leaves the shop as it was. *)
Lemma refused_bid_mutates_nothing_witness :
  refused shop 500 90 7
  /\ fst (@place_bid amount_min_0 shop (socket_of 50 2) (bid_on 7 90) 500 900%N) = shop.
Proof.
  assert (Hrefused : refused shop 500 90 7)
    by (apply (refused_not_above shop 500 90 7 lamp); evaluate).
  split; [exact Hrefused|].
  refine (proj1 (@refused_bid_mutates_nothing amount_min_0 shop
            (socket_of 50 2) (bid_on 7 90) 500 900%N 7%N _ Hrefused)).
  evaluate.
Defined.

(** A bid of 90 after the lamp's deadline is answered "Auction has ended". *)
Lemma rejection_follows_check_order_witness :
  first_failure shop 2000 90 7 "Auction has ended"
  /\ @place_bid amount_min_0 shop (socket_of 50 2) (bid_on 7 90) 2000 900%N
     = (shop, [ToSocket 50 (bid_error (Literal "Auction has ended"))]).
Proof.
  assert (Hfail : first_failure shop 2000 90 7 "Auction has ended")
    by (apply (fails_ended shop 2000 90 7 lamp); evaluate).
  split; [exact Hfail|].
  refine (proj1 (@rejection_follows_check_order amount_min_0 shop
            (socket_of 50 2) (bid_on 7 90) 2000 900%N 7%N _ _ Hfail)).
  evaluate.
Defined.

(** A bid of 150 after the lamp's deadline leaves the lamp as it was. *)
Lemma late_bid_refused_store_kept_witness :
  endTime lamp < 2000
  /\ auctions (fst (@place_bid amount_min_0 shop (socket_of 50 2) (bid_on 7 150)
                      2000 900%N)) !! 7%N = Some lamp.
Proof.
  split; [evaluate|].
  refine (proj2 (@late_bid_refused_store_kept amount_min_0 shop
            (socket_of 50 2) (bid_on 7 150) 2000 900%N 7%N lamp _ _ _));
    evaluate.
Defined.

Lemma valid_store_shop : valid_store shop.
Proof.
  intros oid a. unfold shop. cbn [auctions].
  destruct (decide (oid = 7%N)) as [->|Hne].
  - rewrite lookup_singleton_eq. intros [= <-]. reflexivity.
  - rewrite lookup_singleton_ne by congruence. discriminate.
Defined.




(** Bids of 120, 110 and 130 served one after another. *)
Lemma serial_bids_commit_increasing_prices_witness :
  StronglySorted Qlt
    (committed_prices 7
       (snd (@serve amount_min_0 shop
               [ {| sub_socket := socket_of 50 2; sub_data := bid_on 7 120;
                    sub_now := 500; sub_oid := 900%N |};
                 {| sub_socket := socket_of 51 3; sub_data := bid_on 7 110;
                    sub_now := 501; sub_oid := 901%N |};
                 {| sub_socket := socket_of 51 3; sub_data := bid_on 7 130;
                    sub_now := 502; sub_oid := 902%N |} ]))).
Proof.
  exact (proj1 (@serial_bids_commit_increasing_prices amount_min_0 shop _ 7%N)).
Defined.

(** ** Where the handler departs from the specification *)

(** C3: the seller of the lamp (user 1) bids 150 on it; the handler never
    reads the [seller] path, and the bid is committed and broadcast. *)
Lemma seller_bid_is_committed :
  let result := @place_bid amount_min_0 shop (socket_of 50 1) (bid_on 7 150)
                  500 900%N in
  seller lamp = userId (socket_of 50 1)
  /\ fst result
     = after_commit shop 7 lamp
         {| _id := 900; auction := 7; bidder := 1; amount := 150 |}
  /\ highestBidder <$> auctions (fst result) !! 7%N = Some (Some 1%N)
  /\ snd result
     = [ToRoom (ObjectId 7)
          (new_bid (Some {| bid_doc := {| _id := 900; auction := 7;
                                          bidder := 1; amount := 150 |};
                            bidder_info := Some ann |}) 150)].
Proof. repeat split; evaluate. Qed.

(** C4, as stated, fails: a bid of 150 at time 2000 on the lamp, whose
    deadline 1000 has passed, is refused with "Auction has ended", and the
    stored lamp is still [active] afterwards, not [ended]. *)
Lemma late_bid_leaves_status_active :
  let result := @place_bid amount_min_0 shop (socket_of 50 2) (bid_on 7 150)
                  2000 900%N in
  snd result = [ToSocket 50 (bid_error (Literal "Auction has ended"))]
  /\ status <$> auctions (fst result) !! 7%N = Some active
  /\ status <$> auctions (fst result) !! 7%N ≠ Some ended.
Proof.
  repeat split; try evaluate.
  vm_compute. discriminate.
Qed.

(** C5, as stated, fails: the handlers for 120 and 110 both read the lamp
    at price 100 before either writes; both pass the price check, both are
    past it at the same time, both commit, and the prices broadcast are
    120 then 110, the lamp ending at 110. *)
Lemma interleaved_bids_commit_lower_price :
  let sys := @run amount_min_0 race race_schedule in
  (exists b1 b2,
     tasks (@run amount_min_0 race [0; 1]%nat)
     = [AwaitBidSave (socket_of 50 2) (bid_on 7 120) 7 lamp b1;
        AwaitBidSave (socket_of 51 3) (bid_on 7 110) 7 lamp b2])
  /\ committed_prices 7 (log sys) = [120; 110]%Q
  /\ currentPrice <$> auctions (store sys) !! 7%N = Some 110%Q
  /\ ~ StronglySorted Qlt (committed_prices 7 (log sys)).
Proof.
  split; [do 2 eexists; vm_compute; reflexivity|].
  split; [evaluate|]. split; [evaluate|].
  intros Hsorted. vm_compute in Hsorted.
  apply StronglySorted_inv in Hsorted. destruct Hsorted as [_ Hall].
  apply Forall_inv in Hall. vm_compute in Hall. discriminate Hall.
Qed.




(** * Further properties of the server and of the auction page *)

(** ** [trim] *)

Lemma trim_start_cases (s : string) :
  trim_start s = ""
  \/ exists c t, trim_start s = String c t /\ is_space c = false.
Proof.
  induction s as [|c t IH]; simpl; [left; reflexivity|].
  destruct (is_space c) eqn:Hc; [exact IH|].
  right. exists c, t. split; [reflexivity|exact Hc].
Qed.

Lemma trim_start_snoc (l : list ascii) (c : ascii) :
  is_space c = false ->
  exists w, trim_start (string_of_list_ascii (l ++ [c]))
            = string_of_list_ascii (w ++ [c]).
Proof.
  intros Hc. induction l as [|a l IH]; simpl.
  - rewrite Hc. exists []. reflexivity.
  - destruct (is_space a); [exact IH|]. exists (a :: l). reflexivity.
Qed.

Lemma string_rev_involutive (s : string) : string_rev (string_rev s) = s.
Proof.
  unfold string_rev. rewrite list_ascii_of_string_of_list_ascii.
  rewrite rev_involutive. apply string_of_list_ascii_of_string.
Qed.

Lemma trim_start_idempotent (s : string) :
  trim_start (trim_start s) = trim_start s.
Proof.
  destruct (trim_start_cases s) as [->|[c [t [-> Hc]]]]; [reflexivity|].
  simpl. rewrite Hc. reflexivity.
Qed.

(** A trimmed string has no white space left to trim at either end. *)
Lemma trim_ends (s : string) :
  trim_start (trim s) = trim s
  /\ trim_start (string_rev (trim s)) = string_rev (trim s).
Proof.
  unfold trim. split.
  - destruct (trim_start_cases s) as [->|[c [t [-> Hc]]]]; [reflexivity|].
    unfold string_rev. cbn [list_ascii_of_string rev].
    destruct (trim_start_snoc (rev (list_ascii_of_string t)) c Hc) as [w Hw].
    rewrite Hw, list_ascii_of_string_of_list_ascii, rev_app_distr.
    simpl. rewrite Hc. reflexivity.
  - rewrite string_rev_involutive. apply trim_start_idempotent.
Qed.

Lemma trim_idempotent (s : string) : trim (trim s) = trim s.
Proof.
  destruct (trim_ends s) as [Hstart Hend].
  unfold trim at 1. rewrite Hstart, Hend. apply string_rev_involutive.
Qed.

(** ** Lists of bids *)

Lemma sorted_snoc (l : list Q) (x y : Q) :
  StronglySorted Qlt l -> last l = Some x -> (x < y)%Q ->
  StronglySorted Qlt (l ++ [y]).
Proof.
  intros Hs. revert x. induction Hs as [|a l Hs IH Hall]; intros x Hlast Hxy.
  - discriminate Hlast.
  - simpl. destruct l as [|b l].
    + injection Hlast as <-. repeat constructor. exact Hxy.
    + rewrite last_cons_cons in Hlast. constructor.
      * exact (IH x Hlast Hxy).
      * apply Forall_app. split; [exact Hall|].
        constructor; [|constructor].
        apply last_Some_elem_of in Hlast.
        rewrite Forall_forall in Hall.
        eapply Qlt_trans; [exact (Hall x Hlast)|exact Hxy].
Qed.

Lemma bids_of_snoc_same (db : Store) (b : Bid) (m : gmap N Auction) :
  bids_of (auction b)
    {| auctions := m; bids := bids db ++ [b]; users := users db |}
  = bids_of (auction b) db ++ [b].
Proof.
  unfold bids_of. cbn [bids]. rewrite filter_app.
  rewrite (filter_cons_True _ b []) by reflexivity. reflexivity.
Qed.

Lemma bids_of_snoc_other (db : Store) (b : Bid) (m : gmap N Auction) (k : N) :
  auction b ≠ k ->
  bids_of k {| auctions := m; bids := bids db ++ [b]; users := users db |}
  = bids_of k db.
Proof.
  intros Hne. unfold bids_of. cbn [bids]. rewrite filter_app.
  rewrite (filter_cons_False _ b []) by exact Hne.
  rewrite filter_nil. apply app_nil_r.
Qed.

Lemma filter_other_auction (l : list Bid) (oid k : N) :
  k ≠ oid ->
  filter (fun b => auction b = k) (filter (fun b => auction b ≠ oid) l)
  = filter (fun b => auction b = k) l.
Proof.
  intros Hne. induction l as [|b l IH]; [reflexivity|].
  rewrite (filter_cons (fun b => auction b ≠ oid)).
  destruct (decide (auction b ≠ oid)) as [Hb|Hb].
  - rewrite !filter_cons. rewrite IH. reflexivity.
  - rewrite IH. rewrite filter_cons_False; [reflexivity|].
    intros Hk. apply Hb. congruence.
Qed.

Lemma filter_same_auction (l : list Bid) (oid : N) :
  filter (fun b => auction b = oid) (filter (fun b => auction b ≠ oid) l) = [].
Proof.
  induction l as [|b l IH]; [reflexivity|].
  rewrite (filter_cons (fun b => auction b ≠ oid)).
  destruct (decide (auction b ≠ oid)) as [Hb|Hb]; [|exact IH].
  rewrite filter_cons_False by exact Hb. exact IH.
Qed.

Lemma bids_of_unreferenced (db : Store) (k : N) :
  Forall (fun b => is_Some (auctions db !! auction b)) (bids db) ->
  auctions db !! k = None -> bids_of k db = [].
Proof.
  unfold bids_of. intros Hrefs Hnone.
  induction Hrefs as [|b l Hb _ IH]; [reflexivity|].
  rewrite filter_cons_False; [exact IH|].
  intros Hk. rewrite Hk, Hnone in Hb. destruct Hb as [a Ha]. discriminate Ha.
Qed.

(** ** The outcomes of the delete, create and update routes *)

Lemma authorised_cases (a : Auction) (user : ReqUser) :
  ¬ (seller a ≠ user_id user ∧ role user ≠ "admin") ->
  seller a = user_id user \/ role user = "admin".
Proof.
  intros Hnot. destruct (decide (seller a = user_id user)) as [Hs|Hs];
    [left; exact Hs|].
  destruct (decide (role user = "admin")) as [Hr|Hr]; [right; exact Hr|].
  exfalso. apply Hnot. split; assumption.
Qed.

Lemma delete_auction_cases (db : Store) (id : AuctionRef) (user : ReqUser) :
  (fst (delete_auction db id user) = db
   /\ snd (delete_auction db id user) ≠ DeleteSuccess)
  \/ exists oid a,
       id = ObjectId oid /\ auctions db !! oid = Some a
       /\ (seller a = user_id user \/ role user = "admin")
       /\ delete_auction db id user
          = ({| auctions := delete oid (auctions db);
                bids := filter (fun b => auction b ≠ oid) (bids db);
                users := users db |}, DeleteSuccess).
Proof.
  unfold delete_auction, Auction_findById.
  destruct id as [oid|raw]; [|left; split; [reflexivity|discriminate]].
  destruct (auctions db !! oid) as [a|] eqn:Ha; simpl;
    [|left; split; [reflexivity|discriminate]].
  destruct (decide (seller a ≠ user_id user ∧ role user ≠ "admin")) as [Hno|Hyes];
    [left; split; [reflexivity|discriminate]|].
  right. exists oid, a. split; [reflexivity|]. split; [exact Ha|].
  split; [exact (authorised_cases a user Hyes)|reflexivity].
Qed.

Lemma put_auction_cases (db : Store) (id : AuctionRef) (user : ReqUser)
    (body : UpdateBody) :
  (fst (put_auction db id user body) = db
   /\ forall data, snd (put_auction db id user body) ≠ Success data)
  \/ exists oid a,
       id = ObjectId oid /\ auctions db !! oid = Some a
       /\ (seller a = user_id user \/ role user = "admin")
       /\ Auction_validate (assign_body body a) = true
       /\ fst (put_auction db id user body)
          = with_auctions (<[oid := assign_body body a]> (auctions db)) db.
Proof.
  unfold put_auction, Auction_findById.
  destruct id as [oid|raw]; [|left; split; [reflexivity|discriminate]].
  destruct (auctions db !! oid) as [a|] eqn:Ha; simpl;
    [|left; split; [reflexivity|discriminate]].
  destruct (decide (seller a ≠ user_id user ∧ role user ≠ "admin")) as [Hno|Hyes];
    [left; split; [reflexivity|discriminate]|].
  unfold Auction_save. destruct (Auction_validate _) eqn:Hv;
    [|left; split; [reflexivity|discriminate]].
  rewrite Ha. simpl. right. exists oid, a.
  split; [reflexivity|]. split; [exact Ha|].
  split; [exact (authorised_cases a user Hyes)|]. split; [exact Hv|reflexivity].
Qed.

Lemma create_errors_nil (body : CreateBody) :
  create_errors body = [] ->
  nonempty (trim (new_title body)) = true
  /\ nonempty (trim (new_description body)) = true
  /\ nonempty (trim (new_category body)) = true
  /\ (exists p, new_startingPrice body = Some p /\ Qle_bool 0 p = true)
  /\ exists e, new_endTime body = Some e.
Proof.
  unfold create_errors. intros Hnil.
  apply app_eq_nil in Hnil as [Ht Hnil]. apply app_eq_nil in Hnil as [Hd Hnil].
  apply app_eq_nil in Hnil as [Hp Hnil]. apply app_eq_nil in Hnil as [Hc He].
  destruct (nonempty (trim (new_title body))); [|discriminate Ht].
  destruct (nonempty (trim (new_description body))); [|discriminate Hd].
  destruct (nonempty (trim (new_category body))); [|discriminate Hc].
  destruct (new_startingPrice body) as [p|]; [|discriminate Hp].
  destruct (Qle_bool 0 p) eqn:Hq; [|discriminate Hp].
  destruct (new_endTime body) as [e|]; [|discriminate He].
  repeat split; eauto.
Qed.

(** A request that passes the validation chains builds a document that
    passes the schema validation. *)
Lemma new_auction_valid (body : CreateBody) (p : Q) (e : Z) (user : N)
    (created : Z) :
  create_errors body = [] -> new_startingPrice body = Some p ->
  Auction_validate
    (new_auction (trim (new_title body)) (trim (new_description body)) p
       (trim (new_category body)) (new_image body) e user created) = true.
Proof.
  intros Hnil Hp.
  destruct (create_errors_nil body Hnil) as [Ht [Hd [Hc [[p' [Hp' Hq]] _]]]].
  assert (p' = p) by congruence. subst p'.
  unfold Auction_validate, new_auction. cbn.
  rewrite !trim_idempotent, Ht, Hd, Hc, Hq. reflexivity.
Qed.

Lemma post_auction_cases (db : Store) (user : ReqUser) (body : CreateBody)
    (now created : Z) (new_oid : N) :
  (fst (post_auction db user body now created new_oid) = db
   /\ forall data,
        snd (post_auction db user body now created new_oid) ≠ Created data)
  \/ exists p e,
       create_errors body = []
       /\ new_startingPrice body = Some p /\ new_endTime body = Some e
       /\ now < e /\ auctions db !! new_oid = None
       /\ let doc := new_auction (trim (new_title body))
                       (trim (new_description body)) p
                       (trim (new_category body)) (new_image body) e
                       (user_id user) created in
          Auction_validate doc = true
          /\ fst (post_auction db user body now created new_oid)
             = with_auctions (<[new_oid := doc]> (auctions db)) db.
Proof.
  unfold post_auction.
  destruct (create_errors body) as [|msg errors] eqn:Herr;
    [|left; split; [reflexivity|discriminate]].
  destruct (new_startingPrice body) as [p|] eqn:Hp;
    [|left; split; [reflexivity|discriminate]].
  destruct (new_endTime body) as [e|] eqn:He;
    [|left; split; [reflexivity|discriminate]].
  destruct (decide (e <= now)) as [Hpast|Hfuture];
    [left; split; [reflexivity|discriminate]|].
  unfold Auction_create.
  rewrite (new_auction_valid body p e (user_id user) created Herr Hp).
  destruct (auctions db !! new_oid) eqn:Hfresh;
    [left; split; [reflexivity|discriminate]|].
  right. exists p, e. simpl.
  repeat split; try reflexivity; try assumption; try lia.
  exact (new_auction_valid body p e (user_id user) created Herr Hp).
Qed.

(** ** The store the handlers keep *)

(** On a store whose auctions pass the schema, a call of the bid handler
    either leaves the store alone or commits: the save of the auction
    cannot fail once the bid is saved. *)
Lemma place_bid_valid_cases `{BidSchema} (db : Store) (socket : Socket)
    (data : PlaceBidData) (now : Z) (new_oid : N) :
  valid_store db ->
  fst (place_bid db socket data now new_oid) = db
  \/ exists oid a,
       auctionId data = ObjectId oid /\ auctions db !! oid = Some a
       /\ status a = active /\ now <= endTime a
       /\ (currentPrice a < bidAmount data)%Q
       /\ fst (place_bid db socket data now new_oid)
          = after_commit db oid a
              {| _id := new_oid; auction := oid;
                 bidder := userId socket; amount := bidAmount data |}.
Proof.
  intros Hvalid. unfold place_bid, Auction_findById.
  destruct (auctionId data) as [oid|raw]; [|left; reflexivity].
  destruct (auctions db !! oid) as [a|] eqn:Ha; simpl; [|left; reflexivity].
  destruct (decide (status a ≠ active)) as [Hs|Hs]; [left; reflexivity|].
  destruct (decide (endTime a < now)) as [He|He]; [left; reflexivity|].
  destruct (Qle_bool (bidAmount data) (currentPrice a)) eqn:Hq;
    [left; reflexivity|].
  apply Qle_bool_false in Hq.
  unfold Bid_save. destruct (Bid_validate _); [|left; reflexivity].
  unfold Auction_save.
  rewrite (assign_bid_valid _ _ _ (Hvalid oid a Ha) Hq).
  simpl. rewrite Ha. simpl. right. exists oid, a.
  split; [reflexivity|]. split; [exact Ha|].
  split; [destruct (decide (status a = active)); [assumption|contradiction]|].
  split; [lia|]. split; [exact Hq|reflexivity].
Qed.

Lemma consistent_start (registered : gmap N User) :
  consistent {| auctions := ∅; bids := []; users := registered |}.
Proof.
  split.
  - intros oid a Ha. cbn in Ha. rewrite lookup_empty in Ha. discriminate Ha.
  - constructor.
  - intros oid a Ha. cbn in Ha. rewrite lookup_empty in Ha. discriminate Ha.
Qed.

Lemma consistent_place_bid `{BidSchema} (db : Store) (socket : Socket)
    (data : PlaceBidData) (now : Z) (new_oid : N) :
  consistent db -> consistent (fst (place_bid db socket data now new_oid)).
Proof.
  intros Hc. pose proof Hc as [Hvalid Hrefs Hdoc].
  pose proof (place_bid_keeps_valid_store db socket data now new_oid Hvalid)
    as Hvalid'.
  destruct (place_bid_valid_cases db socket data now new_oid Hvalid)
    as [->|[oid [a [_ [Ha [_ [_ [Hlt Hdb]]]]]]]]; [exact Hc|].
  rewrite Hdb in *. clear Hdb. split; [exact Hvalid'|..].
  - unfold after_commit. cbn [auctions bids amount bidder auction].
    apply Forall_app. split.
    + eapply Forall_impl; [exact Hrefs|]. intros b Hb. cbn beta in *.
      destruct (decide (oid = auction b)) as [->|Hne].
      * rewrite lookup_insert_eq. eauto.
      * rewrite lookup_insert_ne by exact Hne. exact Hb.
    + constructor; [|constructor]. cbn. rewrite lookup_insert_eq. eauto.
  - intros k a'. unfold after_commit. cbn [auctions amount bidder].
    destruct (Hdoc oid a Ha) as [Hst [Hcount [Hsorted [Hlast Hhb]]]].
    destruct (decide (oid = k)) as [<-|Hne].
    + rewrite lookup_insert_eq. intros [= <-].
      pose proof (bids_of_snoc_same db
                    {| _id := new_oid; auction := oid;
                       bidder := userId socket; amount := bidAmount data |}
                    (<[oid := assign_bid (bidAmount data) (userId socket) a]>
                       (auctions db))) as Hbids.
      cbn [auction] in Hbids. rewrite Hbids. clear Hbids.
      rewrite fmap_app. cbn [fmap list_fmap amount].
      cbn [assign_bid set_highestBidder set_currentPrice status bidCount
           startingPrice currentPrice highestBidder].
      split; [exact Hst|]. split; [exact Hcount|]. split; [|split].
      * rewrite app_comm_cons. eapply sorted_snoc; eassumption.
      * rewrite app_comm_cons. apply last_snoc.
      * rewrite last_snoc. reflexivity.
    + rewrite lookup_insert_ne by exact Hne. intros Hk.
      rewrite bids_of_snoc_other by exact Hne. exact (Hdoc k a' Hk).
Qed.

Lemma consistent_put_auction (db : Store) (id : AuctionRef) (user : ReqUser)
    (body : UpdateBody) :
  consistent db -> consistent (fst (put_auction db id user body)).
Proof.
  intros Hc. pose proof Hc as [Hvalid Hrefs Hdoc].
  pose proof (put_auction_keeps_valid_store db id user body Hvalid) as Hvalid'.
  destruct (put_auction_cases db id user body)
    as [[-> _]|[oid [a [_ [Ha [_ [_ Hdb]]]]]]]; [exact Hc|].
  rewrite Hdb in *. clear Hdb. split; [exact Hvalid'|..].
  - cbn [with_auctions auctions bids].
    eapply Forall_impl; [exact Hrefs|]. intros b Hb. cbn beta in *.
    destruct (decide (oid = auction b)) as [->|Hne].
    + rewrite lookup_insert_eq. eauto.
    + rewrite lookup_insert_ne by exact Hne. exact Hb.
  - intros k a'. cbn [with_auctions auctions].
    change (bids_of k (with_auctions (<[oid:=assign_body body a]> (auctions db)) db))
      with (bids_of k db).
    destruct (decide (oid = k)) as [<-|Hne].
    + rewrite lookup_insert_eq. intros [= <-].
      destruct (assign_body_same_bidding_paths body a)
        as [Hp [Hb [Hs [Hsp [_ [_ [_ [Hbc _]]]]]]]].
      rewrite Hp, Hb, Hs, Hsp, Hbc. exact (Hdoc oid a Ha).
    + rewrite lookup_insert_ne by exact Hne. apply Hdoc.
Qed.

Lemma consistent_delete_auction (db : Store) (id : AuctionRef) (user : ReqUser) :
  consistent db -> consistent (fst (delete_auction db id user)).
Proof.
  intros Hc. pose proof Hc as [Hvalid Hrefs Hdoc].
  destruct (delete_auction_cases db id user)
    as [[-> _]|[oid [a [_ [Ha [_ ->]]]]]]; [exact Hc|].
  cbn [fst]. split.
  - intros k a'. cbn [auctions]. intros Hk.
    apply lookup_delete_Some in Hk as [_ Hk]. exact (Hvalid k a' Hk).
  - cbn [auctions bids]. apply Forall_forall. intros b Hb.
    apply list_elem_of_filter in Hb as [Hne Hb].
    rewrite lookup_delete_ne by congruence.
    rewrite Forall_forall in Hrefs. exact (Hrefs b Hb).
  - intros k a'. cbn [auctions]. intros Hk.
    apply lookup_delete_Some in Hk as [Hne Hk].
    unfold bids_of. cbn [bids].
    rewrite filter_other_auction by congruence. exact (Hdoc k a' Hk).
Qed.

Lemma consistent_post_auction (db : Store) (user : ReqUser) (body : CreateBody)
    (now created : Z) (new_oid : N) :
  consistent db ->
  consistent (fst (post_auction db user body now created new_oid)).
Proof.
  intros Hc. pose proof Hc as [Hvalid Hrefs Hdoc].
  destruct (post_auction_cases db user body now created new_oid)
    as [[-> _]|[p [e [_ [_ [_ [_ [Hfresh [Hv ->]]]]]]]]]; [exact Hc|].
  split.
  - intros k a'. cbn [with_auctions auctions].
    destruct (decide (new_oid = k)) as [<-|Hne].
    + rewrite lookup_insert_eq. intros [= <-]. exact Hv.
    + rewrite lookup_insert_ne by exact Hne. apply Hvalid.
  - cbn [with_auctions auctions bids].
    eapply Forall_impl; [exact Hrefs|]. intros b Hb. cbn beta in *.
    destruct (decide (new_oid = auction b)) as [->|Hne].
    + rewrite lookup_insert_eq. eauto.
    + rewrite lookup_insert_ne by exact Hne. exact Hb.
  - intros k a'. cbn [with_auctions auctions].
    match goal with
    | |- context [bids_of k ?d] => change (bids_of k d) with (bids_of k db)
    end.
    destruct (decide (new_oid = k)) as [<-|Hne].
    + rewrite lookup_insert_eq. intros [= <-].
      rewrite (bids_of_unreferenced db new_oid Hrefs Hfresh).
      cbn. repeat split; try reflexivity. repeat constructor.
    + rewrite lookup_insert_ne by exact Hne. apply Hdoc.
Qed.

Lemma reachable_consistent `{BidSchema} (db : Store) :
  reachable db -> consistent db.
Proof.
  induction 1 as [registered|db db' _ IH Hstep].
  - apply consistent_start.
  - destruct Hstep.
    + apply consistent_place_bid. exact IH.
    + apply consistent_put_auction. exact IH.
    + apply consistent_delete_auction. exact IH.
    + apply consistent_post_auction. exact IH.
Qed.

(** ** Handlers interleaved at their awaits *)

Lemma same_listing_refl (a : Auction) : same_listing a a.
Proof. unfold same_listing. repeat split; reflexivity. Qed.

Lemma listings_kept_refl (db : Store) : listings_kept db db.
Proof.
  intros k. destruct (auctions db !! k); constructor. apply same_listing_refl.
Qed.

Lemma listings_kept_trans (db1 db2 db3 : Store) :
  listings_kept db1 db2 -> listings_kept db2 db3 -> listings_kept db1 db3.
Proof.
  intros H12 H23 k. specialize (H12 k). specialize (H23 k).
  destruct H12 as [a a' Haa|]; inversion H23 as [b b' Hbb|]; subst;
    constructor.
  unfold same_listing in *.
  destruct Haa as (?&?&?&?&?&?&?&?&?&?&?), Hbb as (?&?&?&?&?&?&?&?&?&?&?).
  repeat split; congruence.
Qed.

(** What one database call of a task does to the store. *)
Lemma resume_store_cases `{BidSchema} (db : Store) (t : Task) :
  let db' := (resume db t).1.1 in
  db' = db
  \/ (exists b, db' = with_bids (bids db ++ [b]) db)
  \/ (exists oid stored amt user,
        auctions db !! oid = Some stored
        /\ db' = with_auctions
                   (<[oid := assign_bid amt user stored]> (auctions db)) db).
Proof.
  destruct t as [socket data now new_oid|socket data oid doc bid
                |socket data oid doc bid|socket data bid|]; simpl.
  - destruct (Auction_findById db (auctionId data)) as [e|[[o a]|]]; simpl;
      [left; reflexivity| |left; reflexivity].
    destruct (decide (status a ≠ active)); [left; reflexivity|].
    destruct (decide (endTime a < now)); [left; reflexivity|].
    destruct (Qle_bool (bidAmount data) (currentPrice a)); left; reflexivity.
  - unfold Bid_save. destruct (Bid_validate bid); simpl;
      [right; left; eexists; reflexivity|left; reflexivity].
  - unfold Auction_save. destruct (Auction_validate doc) eqn:Hv; simpl;
      [|left; reflexivity].
    destruct (auctions db !! oid) as [stored|] eqn:Hs; simpl;
      [|left; reflexivity].
    right. right. exists oid, stored, (bidAmount data), (userId socket).
    split; [exact Hs|reflexivity].
  - left. reflexivity.
  - left. reflexivity.
Qed.



Section Schedules.
Context `{BidSchema}.

(** A relation between stores that every database call respects holds
    between the store before and the store after any schedule. *)
Variable kept : Store -> Store -> Prop.
Hypothesis kept_refl : forall db, kept db db.
Hypothesis kept_trans :
  forall db1 db2 db3, kept db1 db2 -> kept db2 db3 -> kept db1 db3.
Hypothesis kept_resume : forall db t, kept db (resume db t).1.1.

Lemma schedule_step_kept (sys : System) (i : nat) :
  kept (store sys) (store (schedule_step sys i)).
Proof.
  unfold schedule_step. destruct (tasks sys !! i) as [t|]; [|apply kept_refl].
  pose proof (kept_resume (store sys) t) as Hk.
  destruct (resume (store sys) t) as [[db t'] es]. exact Hk.
Qed.

Lemma run_kept (schedule : list nat) :
  forall sys : System, kept (store sys) (store (run sys schedule)).
Proof.
  induction schedule as [|i rest IH]; intros sys; [apply kept_refl|].
  unfold run. simpl. eapply kept_trans; [apply schedule_step_kept|apply IH].
Qed.
End Schedules.

Lemma resume_listings_kept `{BidSchema} (db : Store) (t : Task) :
  listings_kept db (resume db t).1.1.
Proof.
  destruct (resume_store_cases db t)
    as [->|[[b ->]|[oid [stored [amt [user [Hs ->]]]]]]].
  - apply listings_kept_refl.
  - exact (listings_kept_refl db).
  - intros k. cbn [with_auctions auctions].
    destruct (decide (oid = k)) as [<-|Hne].
    + rewrite lookup_insert_eq, Hs. constructor.
      unfold same_listing. cbn. repeat split; reflexivity.
    + rewrite lookup_insert_ne by exact Hne.
      destruct (auctions db !! k); constructor. apply same_listing_refl.
Qed.

Lemma resume_bids_prefix `{BidSchema} (db : Store) (t : Task) :
  bids db `prefix_of` bids (resume db t).1.1.
Proof.
  destruct (resume_store_cases db t)
    as [->|[[b ->]|[oid [stored [amt [user [Hs ->]]]]]]]; cbn [with_bids with_auctions bids].
  - reflexivity.
  - exists [b]. reflexivity.
  - reflexivity.
Qed.

(** X1: whatever the order in which the event loop resumes the pending bid
    handlers, no auction is created or deleted and, in every auction, only
    the current price and the highest bidder can differ afterwards:
    title, description, category, image, starting price, status, dates,
    seller and bid count are never written. *)
Theorem interleaved_bids_keep_listings `{BidSchema} (sys : System)
    (schedule : list nat) :
  listings_kept (store sys) (store (run sys schedule)).
Proof.
  apply (run_kept listings_kept listings_kept_refl listings_kept_trans
           resume_listings_kept).
Qed.

(** X2: whatever the schedule, the bid collection only grows at its end:
    the bids stored before are a prefix of the bids stored after. *)
Theorem interleaved_bids_append_only `{BidSchema} (sys : System)
    (schedule : list nat) :
  bids (store sys) `prefix_of` bids (store (run sys schedule)).
Proof.
  apply (run_kept (fun db db' => bids db `prefix_of` bids db')).
  - intros db. reflexivity.
  - intros db1 db2 db3 H12 H23. etrans; eassumption.
  - apply resume_bids_prefix.
Qed.



(** ** A serial schedule *)

Lemma schedule_step_at `{BidSchema} (db : Store) (ts : list Task)
    (lg : list Emit) (i : nat) (t : Task) :
  ts !! i = Some t ->
  schedule_step {| store := db; tasks := ts; log := lg |} i
  = {| store := (resume db t).1.1;
       tasks := <[i := (resume db t).1.2]> ts;
       log := lg ++ (resume db t).2 |}.
Proof.
  intros Ht. unfold schedule_step. cbn [tasks store log]. rewrite Ht.
  destruct (resume db t) as [[db' t'] es]. reflexivity.
Qed.

Lemma four_resumes `{BidSchema} (db : Store) (socket : Socket)
    (data : PlaceBidData) (now : Z) (new_oid : N) :
  let r1 := resume db (AwaitAuctionFind socket data now new_oid) in
  let r2 := resume r1.1.1 r1.1.2 in
  let r3 := resume r2.1.1 r2.1.2 in
  let r4 := resume r3.1.1 r3.1.2 in
  r4.1.1 = fst (place_bid db socket data now new_oid)
  /\ r4.1.2 = Returned
  /\ ((r1.2 ++ r2.2) ++ r3.2) ++ r4.2 = snd (place_bid db socket data now new_oid).
Proof.
  unfold place_bid. simpl.
  destruct (Auction_findById db (auctionId data)) as [e|[[o a]|]]; simpl;
    [auto| |auto].
  destruct (decide (status a ≠ active)); simpl; [auto|].
  destruct (decide (endTime a < now)); simpl; [auto|].
  destruct (Qle_bool (bidAmount data) (currentPrice a)); simpl; [auto|].
  destruct (Bid_save db _) as [e|db1]; simpl; [auto|].
  destruct (Auction_save db1 o _ _) as [e|db2]; simpl; auto.
Qed.

Lemma run_four `{BidSchema} (db : Store) (ts : list Task) (lg : list Emit)
    (i : nat) (socket : Socket) (data : PlaceBidData) (now : Z) (new_oid : N) :
  ts !! i = Some (AwaitAuctionFind socket data now new_oid) ->
  run {| store := db; tasks := ts; log := lg |} [i; i; i; i]
  = {| store := fst (place_bid db socket data now new_oid);
       tasks := <[i := Returned]> ts;
       log := lg ++ snd (place_bid db socket data now new_oid) |}.
Proof.
  intros Ht. pose proof (lookup_lt_Some _ _ _ Ht) as Hlt.
  destruct (four_resumes db socket data now new_oid) as [Hdb [Htask Hlog]].
  unfold run. cbn [fold_left].
  rewrite (schedule_step_at _ _ _ _ _ Ht).
  rewrite (schedule_step_at _ _ _ i _ (list_lookup_insert_eq _ _ _ Hlt)).
  rewrite list_insert_insert_eq.
  rewrite (schedule_step_at _ _ _ i _ (list_lookup_insert_eq _ _ _ Hlt)).
  rewrite list_insert_insert_eq.
  rewrite (schedule_step_at _ _ _ i _ (list_lookup_insert_eq _ _ _ Hlt)).
  rewrite list_insert_insert_eq.
  cbn zeta in Hdb, Htask, Hlog. rewrite Hdb, Htask.
  rewrite <- Hlog. rewrite !app_assoc. reflexivity.
Qed.

Lemma serve_cons `{BidSchema} (db : Store) (s : Submission)
    (rest : list Submission) :
  let r := place_bid db (sub_socket s) (sub_data s) (sub_now s) (sub_oid s) in
  serve db (s :: rest)
  = (fst (serve (fst r) rest), snd r ++ snd (serve (fst r) rest)).
Proof.
  simpl.
  destruct (place_bid db (sub_socket s) (sub_data s) (sub_now s) (sub_oid s))
    as [db1 es1].
  simpl. destruct (serve db1 rest) as [db2 es2]. reflexivity.
Qed.

Lemma run_app `{BidSchema} (sys : System) (s1 s2 : list nat) :
  run sys (s1 ++ s2) = run (run sys s1) s2.
Proof. unfold run. apply fold_left_app. Qed.

Lemma run_serial `{BidSchema} (subs : list Submission) :
  forall (done : list Task) (db : Store) (lg : list Emit),
    run {| store := db; tasks := done ++ (task_of <$> subs); log := lg |}
      (serial (length done) (length subs))
    = {| store := fst (serve db subs);
         tasks := done ++ replicate (length subs) Returned;
         log := lg ++ snd (serve db subs) |}.
Proof.
  induction subs as [|s rest IH]; intros done db lg.
  - simpl. rewrite !app_nil_r. reflexivity.
  - change (serial (length done) (length (s :: rest)))
      with ([length done; length done; length done; length done]
            ++ serial (S (length done)) (length rest)).
    rewrite run_app. rewrite fmap_cons. unfold task_of at 1.
    rewrite (run_four db _ lg (length done) (sub_socket s) (sub_data s)
               (sub_now s) (sub_oid s))
      by (apply list_lookup_middle; reflexivity).
    rewrite insert_app_r_alt by lia. rewrite Nat.sub_diag.
    change (<[0%nat := Returned]>
              (AwaitAuctionFind (sub_socket s) (sub_data s) (sub_now s)
                 (sub_oid s) :: (task_of <$> rest)))
      with (Returned :: (task_of <$> rest)).
    rewrite (cons_middle Returned done), app_assoc.
    replace (S (length done)) with (length (done ++ [Returned]))
      by (rewrite length_app; simpl; lia).
    rewrite IH. rewrite serve_cons. cbn [fst snd length replicate].
    rewrite <- !app_assoc. reflexivity.
Qed.

(** X4: when the event loop resumes the handlers of a list of submissions
    one handler at a time, each four times in a row, the store and the
    events are those of serving the submissions one after another, and
    every handler has returned. *)
Theorem serial_schedule_is_serve `{BidSchema} (db : Store)
    (subs : list Submission) :
  let sys := run {| store := db; tasks := task_of <$> subs; log := [] |}
               (serial 0 (length subs)) in
  (store sys, log sys) = serve db subs
  /\ tasks sys = replicate (length subs) Returned.
Proof.
  pose proof (run_serial subs [] db []) as Hrun.
  cbn [app length] in Hrun. cbn zeta. rewrite Hrun. cbn [store log tasks].
  split; [destruct (serve db subs); reflexivity|reflexivity].
Qed.

(** ** What holds of every store the server can reach *)

Lemma market_reachable : @reachable amount_min_0 market.
Proof.
  apply (@reachable_served amount_min_0 listed).
  - apply (@reachable_served amount_min_0 opening).
    + apply reachable_start.
    + apply served_post.
  - apply served_place_bid.
Defined.

(** X5: when requests are handled one at a time from an empty server, the
    current price of every auction is the amount of its latest bid (its
    starting price if it has none), its highest bidder is the bidder of
    that bid (nobody if it has none), and the amounts of its bids, oldest
    first, are strictly increasing and all above the starting price. *)
Theorem reachable_price_is_last_bid `{BidSchema} (db : Store) (oid : N)
    (a : Auction) :
  reachable db -> auctions db !! oid = Some a ->
  currentPrice a = default (startingPrice a) (amount <$> last (bids_of oid db))
  /\ highestBidder a = bidder <$> last (bids_of oid db)
  /\ StronglySorted Qlt (startingPrice a :: (amount <$> bids_of oid db)).
Proof.
  intros Hreach Ha.
  destruct (consistent_doc db (reachable_consistent db Hreach) oid a Ha)
    as [_ [_ [Hsorted [Hlast Hhb]]]].
  split; [|split; assumption].
  rewrite last_cons, fmap_last in Hlast.
  destruct (last (bids_of oid db)) as [b|]; simpl in *; congruence.
Qed.

(** X6: when requests are handled one at a time from an empty server, every
    stored bid refers to an auction that exists: deleting an auction takes
    its bids with it and a bid is only saved for an auction that was
    found. *)
Theorem reachable_bids_reference_auctions `{BidSchema} (db : Store) (b : Bid) :
  reachable db -> b ∈ bids db -> is_Some (auctions db !! auction b).
Proof.
  intros Hreach Hb.
  pose proof (consistent_refs db (reachable_consistent db Hreach)) as Hrefs.
  rewrite Forall_forall in Hrefs. exact (Hrefs b Hb).
Qed.

(** X7: no handler writes the status or the bid count: when requests are
    handled one at a time from an empty server, every auction is active
    with a bid count of 0, whatever its deadline and its bids, and the bid
    handler never answers "Auction is not active". *)
Theorem reachable_auctions_stay_active `{BidSchema} (db : Store) :
  reachable db ->
  (forall oid a, auctions db !! oid = Some a ->
     status a = active /\ bidCount a = 0)
  /\ forall socket data now new_oid,
       ~ In (ToSocket (socket_id socket)
               (bid_error (Literal "Auction is not active")))
            (snd (place_bid db socket data now new_oid)).
Proof.
  intros Hreach. pose proof (reachable_consistent db Hreach) as Hc.
  assert (Hactive : forall oid a, auctions db !! oid = Some a ->
                      status a = active /\ bidCount a = 0).
  { intros oid a Ha.
    destruct (consistent_doc db Hc oid a Ha) as [Hs [Hb _]]. split; assumption. }
  split; [exact Hactive|].
  intros socket data now new_oid. unfold place_bid, Auction_findById.
  destruct (auctionId data) as [oid|raw]; [|intros [Hin|[]]; discriminate Hin].
  destruct (auctions db !! oid) as [a|] eqn:Ha; simpl;
    [|intros [Hin|[]]; discriminate Hin].
  destruct (decide (status a ≠ active)) as [Hs|Hs];
    [destruct (Hactive oid a Ha); contradiction|].
  destruct (decide (endTime a < now)); [intros [Hin|[]]; discriminate Hin|].
  destruct (Qle_bool (bidAmount data) (currentPrice a));
    [intros [Hin|[]]; discriminate Hin|].
  destruct (Bid_save db _) as [e|db1]; [intros [Hin|[]]; discriminate Hin|].
  destruct (Auction_save db1 oid _ _) as [e|db2];
    intros [Hin|[]]; discriminate Hin.
Qed.

(** X8: the profile route counts as won the auctions whose highest bidder
    is the user and whose status is [ended]; as no handler ends an
    auction, the count is 0 for every user in every store reached by
    handling requests one at a time from an empty server. *)
Theorem reachable_nobody_wins `{BidSchema} (db : Store) (user : N) :
  reachable db -> auctionsWon (profile_stats db user) = 0%nat.
Proof.
  intros Hreach. pose proof (reachable_consistent db Hreach) as Hc.
  unfold profile_stats. cbn [auctionsWon].
  apply map_size_empty_iff. apply map_empty. intros k.
  apply map_lookup_filter_None. right. intros a Ha [_ Hended]. cbn in Hended.
  destruct (consistent_doc db Hc k a Ha) as [Hs _]. congruence.
Qed.

(** ** Rooms *)

Lemma join_auction_member_self (rooms : gmap AuctionRef (gset N))
    (socket : Socket) (id : AuctionRef) :
  socket_id socket ∈ join_auction rooms socket id !!! id.
Proof. unfold join_auction. rewrite lookup_total_insert_eq. set_solver. Qed.


(** X10: joining the same auction a second time changes nothing, so a
    socket that joined twice still receives each broadcast of that room
    once. *)
Theorem join_auction_idempotent (rooms : gmap AuctionRef (gset N))
    (socket : Socket) (id : AuctionRef) (p : Payload) :
  join_auction (join_auction rooms socket id) socket id
  = join_auction rooms socket id
  /\ received (join_auction (join_auction rooms socket id) socket id)
       (socket_id socket) [ToRoom id p] = [p].
Proof.
  assert (Hidem : join_auction (join_auction rooms socket id) socket id
                  = join_auction rooms socket id).
  { unfold join_auction. rewrite lookup_total_insert_eq, insert_insert_eq.
    f_equal. rewrite (assoc_L (∪)), (idemp_L (∪)). reflexivity. }
  split; [exact Hidem|]. rewrite Hidem.
  unfold received, delivered. cbn [flat_map].
  destruct (decide (socket_id socket ∈ join_auction rooms socket id !!! id))
    as [_|Hout]; [reflexivity|].
  exfalso. apply Hout. apply join_auction_member_self.
Qed.

(** X11: the outcome of a bid reaches another socket only as a [new-bid]
    and only if that socket is in the room of the auction: a [bid-error]
    is never delivered to anyone but the submitter. *)
Theorem bid_error_is_private `{BidSchema} (rooms : gmap AuctionRef (gset N))
    (db : Store) (socket : Socket) (data : PlaceBidData) (now : Z)
    (new_oid sid : N) :
  sid ≠ socket_id socket ->
  let es := snd (place_bid db socket data now new_oid) in
  received rooms sid es = []
  \/ (sid ∈ rooms !!! auctionId data
      /\ exists bidWithUser,
           es = [ToRoom (auctionId data) (new_bid bidWithUser (bidAmount data))]
           /\ received rooms sid es = [new_bid bidWithUser (bidAmount data)]).
Proof.
  intros Hother es. subst es.
  destruct (place_bid_one_event db socket data now new_oid) as [[pb ->]|[m ->]];
    unfold received, delivered; cbn [flat_map].
  - destruct (decide (sid ∈ rooms !!! auctionId data)) as [Hin|Hout];
      [|left; reflexivity].
    right. split; [exact Hin|]. exists pb. split; reflexivity.
  - left. destruct (decide (socket_id socket = sid)); [congruence|reflexivity].
Qed.

(** ** Deleting and updating *)

(** X12: when the seller or an admin deletes an existing auction, the
    auction and every bid on it are gone, and every other auction keeps
    its document and its bids. *)
Theorem delete_removes_auction_and_bids (db : Store) (oid : N) (a : Auction)
    (user : ReqUser) :
  auctions db !! oid = Some a ->
  seller a = user_id user \/ role user = "admin" ->
  let result := delete_auction db (ObjectId oid) user in
  snd result = DeleteSuccess
  /\ auctions (fst result) !! oid = None
  /\ bids_of oid (fst result) = []
  /\ users (fst result) = users db
  /\ forall k, k ≠ oid ->
       auctions (fst result) !! k = auctions db !! k
       /\ bids_of k (fst result) = bids_of k db.
Proof.
  intros Ha Hauth. unfold delete_auction, Auction_findById.
  rewrite Ha. simpl.
  destruct (decide (seller a ≠ user_id user ∧ role user ≠ "admin"))
    as [[Hs Hr]|_]; [destruct Hauth; contradiction|].
  cbn [fst snd Auction_deleteOne Bid_deleteMany with_auctions with_bids
       auctions bids users].
  split; [reflexivity|]. split; [apply lookup_delete_eq|].
  split; [apply filter_same_auction|]. split; [reflexivity|].
  intros k Hk. split.
  - apply lookup_delete_ne. congruence.
  - unfold bids_of. cbn [bids]. apply filter_other_auction. exact Hk.
Qed.

(** X13: a user who is no admin and is the seller of no auction changes
    nothing through the update route or the delete route, whatever the
    identifier and the body of the request, and neither route reports
    success. *)
Theorem stranger_changes_nothing (db : Store) (user : ReqUser)
    (id : AuctionRef) (body : UpdateBody) :
  role user ≠ "admin" ->
  (forall oid a, auctions db !! oid = Some a -> seller a ≠ user_id user) ->
  fst (put_auction db id user body) = db
  /\ fst (delete_auction db id user) = db
  /\ (forall data, snd (put_auction db id user body) ≠ Success data)
  /\ snd (delete_auction db id user) ≠ DeleteSuccess.
Proof.
  intros Hrole Hseller.
  destruct (put_auction_cases db id user body)
    as [[Hput Hno]|[oid [a [_ [Ha [[Hs|Hr] _]]]]]];
    [|destruct (Hseller oid a Ha Hs)|contradiction].
  destruct (delete_auction_cases db id user)
    as [[Hdel Hno']|[oid [a [_ [Ha [[Hs|Hr] _]]]]]];
    [|destruct (Hseller oid a Ha Hs)|contradiction].
  repeat split; assumption.
Qed.

(** X14: once an auction has been deleted, a bid on it is answered
    "Auction not found" and stores nothing. *)
Theorem bid_after_delete_not_found `{BidSchema} (db : Store) (id : AuctionRef)
    (user : ReqUser) (socket : Socket) (data : PlaceBidData) (now : Z)
    (new_oid : N) :
  snd (delete_auction db id user) = DeleteSuccess ->
  auctionId data = id ->
  place_bid (fst (delete_auction db id user)) socket data now new_oid
  = (fst (delete_auction db id user),
     [ToSocket (socket_id socket) (bid_error (Literal "Auction not found"))]).
Proof.
  intros Hdeleted Hid.
  destruct (delete_auction_cases db id user)
    as [[_ Hno]|[oid [a [-> [_ [_ Heq]]]]]]; [contradiction|].
  rewrite Heq. cbn [fst].
  apply (place_bid_not_found _ _ _ now new_oid oid Hid).
  cbn [auctions]. apply lookup_delete_eq.
Qed.

(** ** Creating an auction *)



(** X17: on an auction that was just created, a bid made before the
    deadline whose amount does not exceed the starting price is answered
    "Bid must be higher than current price": the opening bid has to be
    strictly above the starting price. *)
Theorem opening_bid_must_exceed_starting_price `{BidSchema} (db : Store)
    (user : ReqUser) (body : CreateBody) (now created : Z) (new_oid : N)
    (data : option PopulatedAuction) (p : Q) (e : Z) (socket : Socket)
    (bid : PlaceBidData) (bid_time : Z) (bid_oid : N) :
  snd (post_auction db user body now created new_oid) = Created data ->
  new_startingPrice body = Some p -> new_endTime body = Some e ->
  auctionId bid = ObjectId new_oid ->
  bid_time <= e -> (bidAmount bid <= p)%Q ->
  place_bid (fst (post_auction db user body now created new_oid)) socket bid
    bid_time bid_oid
  = (fst (post_auction db user body now created new_oid),
     [ToSocket (socket_id socket)
        (bid_error (Literal "Bid must be higher than current price"))]).
Proof.
  intros Hcreated Hp He Hid Htime Hamount.
  destruct (post_auction_cases db user body now created new_oid)
    as [[_ Hno]|[p' [e' [_ [Hp' [He' [_ [_ [_ Hdb]]]]]]]]];
    [destruct (Hno data Hcreated)|].
  assert (p' = p) by congruence. assert (e' = e) by congruence. subst p' e'.
  rewrite Hdb.
  eapply (place_bid_too_low _ _ _ _ _ _ Hid).
  - cbn [with_auctions auctions]. apply lookup_insert_eq.
  - reflexivity.
  - exact Htime.
  - exact Hamount.
Qed.

(** ** Updating twice, and a blank title *)

Lemma assign_body_idempotent (body : UpdateBody) (a : Auction) :
  assign_body body (assign_body body a) = assign_body body a.
Proof.
  unfold assign_body, assign_if_defined, assign_if_truthy.
  destruct (body_image body) as [i|], (body_category body) as [c|],
    (body_description body) as [d|], (body_title body) as [t|];
    repeat match goal with |- context [nonempty ?s] => destruct (nonempty s) end;
    destruct a; reflexivity.
Qed.


(** X18: sending the same update a second time changes nothing more: the
    store after two identical updates is the store after one. *)
Theorem put_auction_idempotent (db : Store) (id : AuctionRef) (user : ReqUser)
    (body : UpdateBody) :
  fst (put_auction (fst (put_auction db id user body)) id user body)
  = fst (put_auction db id user body).
Proof.
  destruct (put_auction_cases db id user body)
    as [[Hsame _]|[oid [a [-> [Ha [Hauth [Hv Hdb]]]]]]].
  - rewrite Hsame. exact Hsame.
  - rewrite Hdb. unfold put_auction at 1. unfold Auction_findById.
    cbn [with_auctions auctions]. rewrite lookup_insert_eq. simpl.
    destruct (assign_body_same_bidding_paths body a)
      as [_ [_ [_ [_ [_ [_ [Hseller _]]]]]]].
    rewrite Hseller.
    destruct (decide (seller a ≠ user_id user ∧ role user ≠ "admin"))
      as [[Hs Hr]|_]; [destruct Hauth; contradiction|].
    unfold Auction_save. rewrite assign_body_idempotent, Hv.
    cbn [with_auctions auctions]. rewrite lookup_insert_eq.
    cbn [fst with_auctions auctions bids users].
    rewrite assign_body_idempotent, insert_insert_eq. reflexivity.
Qed.


(** ** The auction page *)

Lemma string_length_app (s1 s2 : string) :
  String.length (s1 +:+ s2) = (String.length s1 + String.length s2)%nat.
Proof. induction s1 as [|c s1 IH]; simpl; [reflexivity|]. rewrite IH. reflexivity. Qed.

(** X20: the page shows "Ended" exactly when the end time is not after the
    current time, and an auction with less than one minute left is shown
    as "0 minutes": seconds are never displayed. *)
Theorem time_remaining_ended_iff (now endTime : Z) :
  (getTimeRemaining now endTime = "Ended" <-> endTime <= now)
  /\ (0 < endTime - now < 60000 ->
      getTimeRemaining now endTime = "0 minutes").
Proof.
  unfold getTimeRemaining. cbn zeta. split.
  - destruct (decide (endTime - now <= 0)) as [Hle|Hgt].
    + split; [intros _; lia|reflexivity].
    + split; [|intros Hle; lia].
      intros Heq. exfalso. apply (f_equal String.length) in Heq.
      repeat match type of Heq with
             | context [decide ?P] => destruct (decide P)
             end;
        rewrite !string_length_app in Heq; simpl in Heq; lia.
  - intros [Hpos Hlt].
    destruct (decide (endTime - now <= 0)) as [Hle|_]; [lia|].
    rewrite (Z.div_small (endTime - now) (1000 * 60 * 60 * 24)) by lia.
    rewrite (Z.rem_small (endTime - now) (1000 * 60 * 60 * 24)) by lia.
    rewrite (Z.rem_small (endTime - now) (1000 * 60 * 60)) by lia.
    rewrite (Z.div_small (endTime - now) (1000 * 60 * 60)) by lia.
    rewrite (Z.div_small (endTime - now) (1000 * 60)) by lia.
    destruct (decide (0 > 0)) as [Habs|_]; [lia|]. reflexivity.
Qed.

Lemma isActive_true (a : Auction) (now : Z) :
  isActive a now = true <-> status a = active /\ now < endTime a.
Proof.
  unfold isActive. rewrite andb_true_iff, !bool_decide_eq_true. reflexivity.
Qed.

(** X21: a bid that the page lets through is committed by the server when
    the page's view of the auction is the stored document and the bid
    arrives at the instant the page checked: the page shows the form only
    for an active auction before its end time and sends only an amount
    above the price it shows.  The stored auction and the new bid are
    assumed to pass their schema validation. *)
Theorem page_bid_is_committed `{BidSchema} (db : Store) (oid : N)
    (a : Auction) (user : N) (socket : Socket) (amt : Q) (now : Z)
    (new_oid : N) (data : PlaceBidData) :
  auctions db !! oid = Some a ->
  isActive a now = true ->
  handleBid (Some user) true (ObjectId oid) a amt = EmitPlaceBid data ->
  Auction_validate a = true ->
  Bid_validate {| _id := new_oid; auction := oid;
                  bidder := userId socket; amount := amt |} = true ->
  bid_committed db (fst (place_bid db socket data now new_oid)) oid
    (userId socket) amt
  /\ exists bidWithUser,
       snd (place_bid db socket data now new_oid)
       = [ToRoom (ObjectId oid) (new_bid bidWithUser amt)].
Proof.
  intros Ha Hactive Hemit Hva Hvb.
  apply isActive_true in Hactive as [Hst Hend].
  unfold handleBid in Hemit.
  destruct (Qle_bool amt (currentPrice a)) eqn:Hq; [discriminate Hemit|].
  injection Hemit as <-. apply Qle_bool_false in Hq.
  destruct (place_bid_commit db socket
              {| auctionId := ObjectId oid; bidAmount := amt |} now new_oid
              oid a eq_refl Ha Hst ltac:(lia) Hq Hva Hvb) as [pb ->].
  cbn [fst snd auctionId bidAmount]. split; [|exists pb; reflexivity].
  unfold bid_committed, after_commit. cbn [auctions bids amount bidder]. split.
  - eexists. rewrite lookup_insert_eq. split; [reflexivity|].
    split; reflexivity.
  - eexists. split; [reflexivity|]. repeat split; reflexivity.
Qed.

(** X22: the page and the server agree on whether an auction is open,
    except at the end time itself: when the page shows it open the server
    answers neither "Auction is not active" nor "Auction has ended"; when
    the page shows it closed the server answers one of the two, unless the
    auction is active and the current time equals the end time, where the
    server still takes the bid. *)
Theorem page_and_server_differ_at_deadline `{BidSchema} (db : Store)
    (socket : Socket) (data : PlaceBidData) (now : Z) (new_oid oid : N)
    (a : Auction) :
  auctionId data = ObjectId oid -> auctions db !! oid = Some a ->
  let es := snd (place_bid db socket data now new_oid) in
  let closed :=
    es = [ToSocket (socket_id socket) (bid_error (Literal "Auction is not active"))]
    \/ es = [ToSocket (socket_id socket) (bid_error (Literal "Auction has ended"))] in
  (isActive a now = true -> ~ closed)
  /\ (isActive a now = false ->
      closed \/ (status a = active /\ now = endTime a))
  /\ (status a = active -> now = endTime a ->
      isActive a now = false /\ ~ closed).
Proof.
  intros Hid Ha es closed.
  assert (Hopen : status a = active -> now <= endTime a -> ~ closed).
  { intros Hst Hend. subst closed es. unfold place_bid, Auction_findById.
    rewrite Hid, Ha. simpl.
    destruct (decide (status a ≠ active)); [contradiction|].
    destruct (decide (endTime a < now)); [lia|].
    destruct (Qle_bool (bidAmount data) (currentPrice a));
      [intros [Heq|Heq]; discriminate Heq|].
    destruct (Bid_save db _) as [e|db1]; [intros [Heq|Heq]; discriminate Heq|].
    destruct (Auction_save db1 oid _ _) as [e|db2];
      intros [Heq|Heq]; discriminate Heq. }
  split; [|split].
  - intros Hactive. apply isActive_true in Hactive as [Hst Hend].
    apply Hopen; [exact Hst|lia].
  - intros Hinactive.
    destruct (decide (status a = active)) as [Hst|Hst].
    + destruct (decide (endTime a < now)) as [Hpast|Hnot].
      * left. right. subst es.
        rewrite (place_bid_ended _ _ _ _ new_oid _ Hid a Ha Hst Hpast).
        reflexivity.
      * right. split; [exact Hst|].
        destruct (decide (now < endTime a)) as [Hlt|Hge]; [|lia].
        assert (isActive a now = true) by (apply isActive_true; auto).
        congruence.
    + left. left. subst es.
      rewrite (place_bid_not_active _ _ _ now new_oid _ Hid a Ha Hst).
      reflexivity.
  - intros Hst Hnow. split; [|apply Hopen; [exact Hst|lia]].
    destruct (isActive a now) eqn:Hactive; [|reflexivity].
    apply isActive_true in Hactive as [_ Hlt]. lia.
Qed.

(** ** The profile *)

(** X23: on a store whose auctions pass the schema validation, a bid that
    is broadcast raises the number of bids placed by its bidder by one
    and nobody else's, and a bid that is refused raises no count. *)
Theorem committed_bid_counts_once `{BidSchema} (db : Store) (socket : Socket)
    (data : PlaceBidData) (now : Z) (new_oid user : N) :
  valid_store db ->
  let result := place_bid db socket data now new_oid in
  bidsPlaced (profile_stats (fst result) user)
  = (bidsPlaced (profile_stats db user)
     + match snd result with
       | [ToRoom _ _] => if decide (userId socket = user) then 1 else 0
       | _ => 0
       end)%nat.
Proof.
  intros Hvalid. cbn zeta. unfold place_bid, Auction_findById, profile_stats.
  cbn [bidsPlaced].
  destruct (auctionId data) as [oid|raw]; [|simpl; lia].
  destruct (auctions db !! oid) as [a|] eqn:Ha; simpl; [|lia].
  destruct (decide (status a ≠ active)); [simpl; lia|].
  destruct (decide (endTime a < now)); [simpl; lia|].
  destruct (Qle_bool (bidAmount data) (currentPrice a)) eqn:Hq; [simpl; lia|].
  apply Qle_bool_false in Hq.
  unfold Bid_save. destruct (Bid_validate _); [|simpl; lia].
  unfold Auction_save.
  rewrite (assign_bid_valid _ _ _ (Hvalid oid a Ha) Hq).
  cbn [with_bids auctions]. rewrite Ha.
  cbn [fst snd with_auctions with_bids bids].
  rewrite filter_app, length_app, filter_cons, filter_nil. cbn [bidder].
  destruct (decide (userId socket = user)); reflexivity.
Qed.

(** ** The further properties on the market *)

(** The vase after the bid of 30: price 30, bidder 2, one bid. *)
Lemma reachable_price_is_last_bid_witness :
  auctions market !! 8%N = Some (assign_bid 30 2 vase)
  /\ currentPrice (assign_bid 30 2 vase)
     = default (startingPrice (assign_bid 30 2 vase))
         (amount <$> last (bids_of 8 market)).
Proof.
  assert (Hvase : auctions market !! 8%N = Some (assign_bid 30 2 vase))
    by evaluate.
  split; [exact Hvase|].
  exact (proj1 (@reachable_price_is_last_bid amount_min_0 market 8%N _
                  market_reachable Hvase)).
Defined.

(** The bid on the vase refers to the vase. *)
Lemma reachable_bids_reference_auctions_witness :
  vase_bid ∈ bids market /\ is_Some (auctions market !! auction vase_bid).
Proof.
  assert (Hin : vase_bid ∈ bids market).
  { replace (bids market) with [vase_bid] by evaluate. apply list_elem_of_here. }
  split; [exact Hin|].
  exact (@reachable_bids_reference_auctions amount_min_0 market vase_bid
           market_reachable Hin).
Defined.

(** The vase is active with a bid count of 0 after its first bid. *)
Lemma reachable_auctions_stay_active_witness :
  status (assign_bid 30 2 vase) = active /\ bidCount (assign_bid 30 2 vase) = 0.
Proof.
  refine (proj1 (@reachable_auctions_stay_active amount_min_0 market
                   market_reachable) 8%N _ _).
  evaluate.
Defined.

(** User 2 holds the highest bid on the vase and has won nothing. *)
Lemma reachable_nobody_wins_witness :
  auctionsWon (profile_stats market 2) = 0%nat.
Proof.
  exact (@reachable_nobody_wins amount_min_0 market 2%N market_reachable).
Defined.

(** Socket 51 sees nothing of the refusal sent to socket 50. *)
Lemma bid_error_is_private_witness :
  51%N ≠ socket_id (socket_of 50 2)
  /\ (received (join_auction ∅ (socket_of 51 3) (ObjectId 7)) 51
        (snd (@place_bid amount_min_0 shop (socket_of 50 2) (bid_on 7 90)
                500 900%N)) = []
      \/ (51%N ∈ join_auction ∅ (socket_of 51 3) (ObjectId 7)
                   !!! auctionId (bid_on 7 90)
          /\ exists bidWithUser,
               snd (@place_bid amount_min_0 shop (socket_of 50 2) (bid_on 7 90)
                      500 900%N)
               = [ToRoom (auctionId (bid_on 7 90))
                    (new_bid bidWithUser (bidAmount (bid_on 7 90)))]
               /\ received (join_auction ∅ (socket_of 51 3) (ObjectId 7)) 51
                    (snd (@place_bid amount_min_0 shop (socket_of 50 2)
                            (bid_on 7 90) 500 900%N))
                  = [new_bid bidWithUser (bidAmount (bid_on 7 90))])).
Proof.
  assert (Hother : 51%N ≠ socket_id (socket_of 50 2)) by (cbn; lia).
  split; [exact Hother|].
  exact (@bid_error_is_private amount_min_0
           (join_auction ∅ (socket_of 51 3) (ObjectId 7)) shop (socket_of 50 2)
           (bid_on 7 90) 500 900%N 51%N Hother).
Defined.

(** The admin deletes the vase from the market: the vase and its bid go. *)
Lemma delete_removes_auction_and_bids_witness :
  auctions market !! 8%N = Some (assign_bid 30 2 vase)
  /\ auctions (fst (delete_auction market (ObjectId 8) admin)) !! 8%N = None.
Proof.
  assert (Hvase : auctions market !! 8%N = Some (assign_bid 30 2 vase))
    by evaluate.
  split; [exact Hvase|].
  refine (proj1 (proj2 (delete_removes_auction_and_bids market 8
                          (assign_bid 30 2 vase) admin Hvase _))).
  right. reflexivity.
Defined.

(** User 2 sells nothing in the shop and is no admin. *)
Lemma stranger_changes_nothing_witness :
  fst (put_auction shop (ObjectId 7) {| user_id := 2; role := "user" |}
         blank_title) = shop
  /\ fst (delete_auction shop (ObjectId 7) {| user_id := 2; role := "user" |})
     = shop.
Proof.
  assert (Hseller : forall oid a, auctions shop !! oid = Some a ->
                      seller a ≠ user_id {| user_id := 2; role := "user" |}).
  { intros oid a. unfold shop. cbn [auctions].
    destruct (decide (oid = 7%N)) as [->|Hne].
    - rewrite lookup_singleton_eq. intros [= <-]. cbn. lia.
    - rewrite lookup_singleton_ne by congruence. discriminate. }
  destruct (stranger_changes_nothing shop {| user_id := 2; role := "user" |}
              (ObjectId 7) blank_title ltac:(discriminate) Hseller)
    as [Hput [Hdel _]].
  split; assumption.
Defined.

(** A bid on the lamp after its seller deleted it. *)
Lemma bid_after_delete_not_found_witness :
  snd (delete_auction shop (ObjectId 7) {| user_id := 1; role := "user" |})
  = DeleteSuccess
  /\ snd (@place_bid amount_min_0
            (fst (delete_auction shop (ObjectId 7)
                    {| user_id := 1; role := "user" |}))
            (socket_of 50 2) (bid_on 7 150) 500 900%N)
     = [ToSocket 50 (bid_error (Literal "Auction not found"))].
Proof.
  assert (Hdeleted :
            snd (delete_auction shop (ObjectId 7)
                   {| user_id := 1; role := "user" |}) = DeleteSuccess)
    by evaluate.
  split; [exact Hdeleted|].
  rewrite (@bid_after_delete_not_found amount_min_0 shop (ObjectId 7)
             {| user_id := 1; role := "user" |} (socket_of 50 2) (bid_on 7 150)
             500 900%N Hdeleted eq_refl).
  reflexivity.
Defined.


(** A first bid of exactly 20 on the vase, listed at 20. *)
Lemma opening_bid_must_exceed_starting_price_witness :
  @place_bid amount_min_0 listed (socket_of 50 2) (bid_on 8 20) 200 900%N
  = (listed,
     [ToSocket 50 (bid_error (Literal "Bid must be higher than current price"))]).
Proof.
  refine (@opening_bid_must_exceed_starting_price amount_min_0 opening carol
            vase_body 100 101 8%N
            (Auction_findById_populate listed 8) 20%Q 5000 (socket_of 50 2)
            (bid_on 8 20) 200 900%N _ _ _ _ _ _); evaluate.
Defined.


(** The page lets a bid of 150 on the lamp through at time 500. *)
Lemma page_bid_is_committed_witness :
  handleBid (Some 2%N) true (ObjectId 7) lamp 150 = EmitPlaceBid (bid_on 7 150)
  /\ bid_committed shop
       (fst (@place_bid amount_min_0 shop (socket_of 50 2) (bid_on 7 150)
               500 900%N)) 7 2 150.
Proof.
  assert (Hemit : handleBid (Some 2%N) true (ObjectId 7) lamp 150
                  = EmitPlaceBid (bid_on 7 150)) by evaluate.
  split; [exact Hemit|].
  refine (proj1 (@page_bid_is_committed amount_min_0 shop 7%N lamp 2%N
                   (socket_of 50 2) 150%Q 500 900%N (bid_on 7 150)
                   _ _ Hemit _ _)); evaluate.
Defined.

(** At time 1000, the lamp's end time, the page shows it closed and the
    server does not. *)
Lemma page_and_server_differ_at_deadline_witness :
  isActive lamp 1000 = false
  /\ snd (@place_bid amount_min_0 shop (socket_of 50 2) (bid_on 7 150)
            1000 900%N)
     ≠ [ToSocket 50 (bid_error (Literal "Auction has ended"))].
Proof.
  destruct (proj2 (proj2 (@page_and_server_differ_at_deadline amount_min_0 shop
                            (socket_of 50 2) (bid_on 7 150) 1000 900%N 7%N lamp
                            eq_refl ltac:(evaluate)))
              eq_refl eq_refl) as [Hclosed Hopen].
  split; [exact Hclosed|].
  intros Heq. apply Hopen. right. exact Heq.
Defined.

(** User 2 has placed one bid after the bid on the lamp. *)
Lemma committed_bid_counts_once_witness :
  valid_store shop
  /\ bidsPlaced
       (profile_stats
          (fst (@place_bid amount_min_0 shop (socket_of 50 2) (bid_on 7 150)
                  500 900%N)) 2) = 1%nat.
Proof.
  split; [exact valid_store_shop|].
  rewrite (@committed_bid_counts_once amount_min_0 shop (socket_of 50 2)
             (bid_on 7 150) 500 900%N 2%N valid_store_shop).
  evaluate.
Defined.
